(** * instagram-botter: the retrying request executor, the action handlers,
      the batch dispatcher and the target loader of [main.py]

    The Python program talks to the network, sleeps, draws random numbers and
    logs.  Each of these effects is made explicit here:

    - a task runs in a [World] that holds its identity, the random generator
      as it observes it, the number of draws and of requests it has made so
      far, and the chronological [trace] of the effects it has performed;
    - [session.request] is an oracle ([Session]): it answers the k-th call of
      a task with a response or by raising;
    - a Python exception is a value of [exn]; a computation returns
      [Return v] or [Throw e] together with the world it leaves behind.

    Python [int]s are [Z].  Python [float]s are idealised as exact rationals
    ([Q]): rounding, infinities and the range of [time.sleep] are not part of
    this model. *)

From Stdlib Require Import ZArith QArith Qabs Qpower Qminmax String List Bool Arith Lia Lqa.
From Stdlib Require Import Permutation.
From Equations Require Import Equations.
Import ListNotations.

Set Implicit Arguments.

Local Open Scope Z_scope.

(** ** Exceptions and results *)

(** The classes of exception the program tells apart:
    [except requests.RequestException] in [safe_request] catches the first
    constructor only; [except Exception] in [process_targets] catches both. *)
Inductive exn : Type :=
| RequestException            (* requests.RequestException and its subclasses *)
| OtherException (cls : string). (* any other subclass of Exception *)

Definition is_RequestException (e : exn) : bool :=
  match e with
  | RequestException => true
  | OtherException _ => false
  end.

Inductive result (A : Type) : Type :=
| Return (v : A)
| Throw (e : exn).
Arguments Return {A} v.
Arguments Throw {A} e.

Definition raises {A : Type} (r : result A) : bool :=
  match r with
  | Return _ => false
  | Throw _ => true
  end.

(** ** Strings *)

(** A Python [str] is a sequence of code points.  Literals of the program
    (methods, actions, format strings) stay Rocq strings. *)
Definition char : Type := N.
Definition str : Type := list char.

Fixpoint of_string (s : string) : str :=
  match s with
  | EmptyString => []
  | String c rest => Ascii.N_of_ascii c :: of_string rest
  end.

(** ** Responses, log records and effects *)

(** What the program reads of a [requests.Response]: [status_code], and [ok]
    (which is also the truth value of the object, [Response.__bool__]). *)
Record Response : Type := mkResponse {
  status_code : Z;
  ok : bool
}.

Inductive level : Type := DEBUG | INFO | WARNING | ERROR | EXCEPTION.

Inductive event : Type :=
| EvRequest (method : string) (url : str) (* session.request(method, url, timeout=(10, 30)) *)
| EvSleep (seconds : Q)                   (* time.sleep(seconds) *)
| EvLog (lvl : level) (fmt : string).     (* logger.<lvl>(fmt, ...) *)

Definition is_request (e : event) : bool :=
  match e with EvRequest _ _ => true | _ => false end.

Definition is_sleep (e : event) : bool :=
  match e with EvSleep _ => true | _ => false end.

(** Number of calls of [session.request] recorded in a trace. *)
Definition request_calls (tr : list event) : nat :=
  List.length (filter is_request tr).

Definition sleep_calls (tr : list event) : nat :=
  List.length (filter is_sleep tr).

(** ** The world of one task *)

Inductive reply : Type :=
| Responds (r : Response)
| Fails (e : exn).

(** The shared session: [answer s t k method url] is the outcome of the k-th
    call of [session.request] made by the task that runs as [t] (the
    connection-level retries of the mounted adapter happen inside one
    call). *)
Record Session : Type := mkSession {
  answer : nat -> nat -> string -> str -> reply
}.

Record World : Type := mkWorld {
  tid : nat;             (* the running task *)
  rng : nat -> Q;        (* random.random() as this task sees it: the k-th draw *)
  draws : nat;           (* draws made so far *)
  calls : nat;           (* requests made so far *)
  trace : list event     (* effects so far, oldest first *)
}.

Definition new_world (t : nat) (g : nat -> Q) : World :=
  {| tid := t; rng := g; draws := 0%nat; calls := 0%nat; trace := [] |}.

Definition emit (e : event) (w : World) : World :=
  {| tid := tid w; rng := rng w; draws := draws w; calls := calls w;
     trace := trace w ++ [e] |}.

(** ** The effect monad *)

Definition M (A : Type) : Type := World -> result A * World.

Definition ret {A : Type} (v : A) : M A := fun w => (Return v, w).

Definition bind {A B : Type} (c : M A) (k : A -> M B) : M B :=
  fun w =>
    match c w with
    | (Return v, w') => k v w'
    | (Throw e, w') => (Throw e, w')
    end.

(** [try: c except requests.RequestException: h]; an exception of another
    class passes through. *)
Definition try_except_RequestException {A : Type} (c : M A) (h : M A) : M A :=
  fun w =>
    match c w with
    | (Return v, w') => (Return v, w')
    | (Throw e, w') => if is_RequestException e then h w' else (Throw e, w')
    end.

Declare Scope io_scope.
Delimit Scope io_scope with io.
Notation "x <- c ;; k" := (bind c (fun x => k))
  (at level 100, c at next level, right associativity) : io_scope.
Notation "c ;; k" := (bind c (fun _ => k))
  (at level 100, right associativity) : io_scope.
Local Open Scope io_scope.

Definition log (l : level) (fmt : string) : M unit :=
  fun w => (Return tt, emit (EvLog l fmt) w).

Definition time_sleep (seconds : Q) : M unit :=
  fun w => (Return tt, emit (EvSleep seconds) w).

(** [random.uniform(a, b)] is [a + (b - a) * random.random()]. *)
Definition uniform (a b r : Q) : Q := (a + (b - a) * r)%Q.

Definition random_uniform (a b : Q) : M Q :=
  fun w =>
    (Return (uniform a b (rng w (draws w))),
     {| tid := tid w; rng := rng w; draws := S (draws w); calls := calls w;
        trace := trace w |}).

Definition session_request (s : Session) (method : string) (url : str) : M Response :=
  fun w =>
    let w' := {| tid := tid w; rng := rng w; draws := draws w; calls := S (calls w);
                 trace := trace w ++ [EvRequest method url] |} in
    match answer s (tid w) (calls w) method url with
    | Responds r => (Return r, w')
    | Fails e => (Throw e, w')
    end.

(** ** exponential_backoff_sleep *)

(** Python's [max(0, wait)]: [wait] when it is greater than 0, else 0. *)
Definition py_max0 (wait : Q) : Q :=
  if Qlt_le_dec 0 wait then wait else 0%Q.

Definition exponential_backoff_sleep (base : Q) (attempt : Z) (jitter : Q) : M unit :=
  let wait := (base * (2 ^ attempt))%Q in
  u <- random_uniform (- jitter) jitter ;;
  let wait := (wait * (1 + u))%Q in
  log DEBUG "Backoff sleep: %.2fs (attempt=%d)" ;;
  time_sleep (py_max0 wait).

(** ** safe_request *)

(** [resp.status_code in (429, 420)] *)
Definition rate_limited (r : Response) : bool :=
  (status_code r =? 429) || (status_code r =? 420).

(** How one pass through the body of the [while] loop ends: by [return resp],
    or by reaching [attempt += 1] (through [continue] or the handler). *)
Inductive pass : Type :=
| Returned (resp : Response)
| Again.

Definition attempt_once (session : Session) (method : string) (url : str)
    (attempt : Z) : M pass :=
  try_except_RequestException
    (resp <- session_request session method url ;;
     log DEBUG "Request %s %s -> %s" ;;
     if rate_limited resp then
       log WARNING "Rate limited (status=%s). Backing off..." ;;
       exponential_backoff_sleep 2 attempt (1 # 2) ;;
       ret Again
     else ret (Returned resp))
    (log WARNING "RequestException on %s %s: %s" ;;
     exponential_backoff_sleep 1 attempt (1 # 2) ;;
     ret Again).

(** The [while attempt < max_attempts] loop, entered with the current value
    of [attempt]; it ends because [max_attempts - attempt] decreases. *)
Equations? safe_request_from (session : Session) (method : string) (url : str)
    (max_attempts attempt : Z) (w : World) : result (option Response) * World
    by wf (Z.to_nat (max_attempts - attempt)) lt :=
  safe_request_from session method url max_attempts attempt w
    with Z_lt_dec attempt max_attempts := {
    | left _ with attempt_once session method url attempt w := {
        | (Return (Returned resp), w') := (Return (Some resp), w');
        | (Return Again, w') :=
            safe_request_from session method url max_attempts (attempt + 1) w';
        | (Throw e, w') := (Throw e, w') };
    | right _ :=
        (log ERROR "Max attempts reached for %s %s" ;; ret None) w }.
Proof. lia. Qed.

Definition safe_request (session : Session) (method : string) (url : str)
    (max_attempts : Z) : M (option Response) :=
  let attempt := 0 in
  safe_request_from session method url max_attempts attempt.

(** ** like_post and follow_user *)

(** [resp and resp.ok]: [None] is false, and a response is true when it is
    [ok]; [resp.ok] is read only then. *)
Definition resp_and_ok (resp : option Response) : bool :=
  match resp with
  | None => false
  | Some r => if ok r then ok r else false
  end.

Definition like_post (session : Session) (post_url : str) (dry_run : bool) : M bool :=
  log INFO "Like post: %s" ;;
  if dry_run then
    log INFO "[dry-run] Simulando like a %s" ;;
    ret true
  else
    resp <- safe_request session "POST" post_url 5 ;;
    if resp_and_ok resp then
      log INFO "Like OK: %s" ;;
      ret true
    else
      log WARNING "Like falló para %s: %s" ;;
      ret false.

Definition follow_user (session : Session) (user_id_or_url : str) (dry_run : bool) : M bool :=
  log INFO "Follow user: %s" ;;
  if dry_run then
    log INFO "[dry-run] Simulando follow a %s" ;;
    ret true
  else
    resp <- safe_request session "POST" user_id_or_url 5 ;;
    if resp_and_ok resp then
      log INFO "Follow OK: %s" ;;
      ret true
    else
      log WARNING "Follow falló para %s: %s" ;;
      ret false.

(** ** process_targets *)

(** What the thread pool and the scheduler of one [process_targets] call
    decide: the identity under which the i-th submitted task runs, the draws
    that task sees, and when it completes.  Every interleaving of the worker
    threads is one choice of these. *)
Record Pool : Type := mkPool {
  task_of : nat -> nat;
  random_of : nat -> nat -> Q;
  completed_at : nat -> nat
}.

(** A future, once done: the position at which it was submitted, its target,
    what [f.result()] returns or raises, and what the task did. *)
Record Future : Type := mkFuture {
  index : nat;
  target : str;
  outcome : result bool;
  effects : list event
}.

(** [ex.submit(fn, session, t, dry_run)] *)
Definition submit (pool : Pool) (i : nat) (t : str) (task : M bool) : Future :=
  let (r, w) := task (new_world (task_of pool i) (random_of pool i)) in
  {| index := i; target := t; outcome := r; effects := trace w |}.

(** What the main thread does, in program order. *)
Inductive main_event : Type :=
| Submitted (f : Future)              (* ex.submit returned f *)
| Completed (f : Future)              (* as_completed yielded f *)
| Logged (lvl : level) (fmt : string) (* logger.<lvl>(fmt, ...) *)
| Slept (seconds : Q).                (* time.sleep(seconds) *)

(** The first loop of [process_targets]; [futures] is the list built so far. *)
Fixpoint submit_all (session : Session) (action : string) (dry_run : bool)
    (pool : Pool) (targets : list str) (futures : list Future) : list Future :=
  match targets with
  | [] => futures
  | t :: rest =>
      let futures :=
        if (action =? "like")%string then
          futures ++ [submit pool (List.length futures) t (like_post session t dry_run)]
        else if (action =? "follow")%string then
          futures ++ [submit pool (List.length futures) t (follow_user session t dry_run)]
        else futures in
      submit_all session action dry_run pool rest futures
  end.

(** [as_completed(futures)]: the futures in the order of their completion. *)
Fixpoint insert_completed (pool : Pool) (f : Future) (done : list Future) : list Future :=
  match done with
  | [] => [f]
  | g :: rest =>
      if (completed_at pool (index f) <? completed_at pool (index g))%nat
      then f :: g :: rest
      else g :: insert_completed pool f rest
  end.

Definition as_completed (pool : Pool) (futures : list Future) : list Future :=
  fold_right (insert_completed pool) [] futures.

(** The second loop: [results.append(f.result())] under
    [except Exception as e: logger.exception(...)]. *)
Fixpoint collect (done : list Future) (results : list bool) : list bool * list main_event :=
  match done with
  | [] => (results, [])
  | f :: rest =>
      match outcome f with
      | Return b =>
          let (results, evs) := collect rest (results ++ [b]) in
          (results, Completed f :: evs)
      | Throw e =>
          let (results, evs) := collect rest results in
          (results, Completed f :: Logged EXCEPTION "Error en tarea: %s" :: evs)
      end
  end.

(** [ThreadPoolExecutor(max_workers=concurrency)] raises [ValueError] when
    [concurrency <= 0]. *)
Definition process_targets (session : Session) (targets : list str) (action : string)
    (concurrency : Z) (dry_run : bool) (pool : Pool)
    : result (list bool) * list main_event :=
  let results := [] in
  if concurrency <=? 0 then (Throw (OtherException "ValueError"), [])
  else
    let futures := submit_all session action dry_run pool targets [] in
    let (results, evs) := collect (as_completed pool futures) results in
    (Return results, map Submitted futures ++ evs).

(** ** load_targets_from_file *)

(** [str.isspace] on one code point (the whitespace that [str.strip()]
    removes). *)
Definition isspace (c : char) : bool :=
  ((9 <=? c) && (c <=? 13) || (28 <=? c) && (c <=? 32) || (c =? 133) || (c =? 160)
   || (c =? 5760) || (8192 <=? c) && (c <=? 8202) || (c =? 8232) || (c =? 8233)
   || (c =? 8239) || (c =? 8287) || (c =? 12288))%N.

Fixpoint lstrip (s : str) : str :=
  match s with
  | [] => []
  | c :: rest => if isspace c then lstrip rest else s
  end.

Definition rstrip (s : str) : str := rev (lstrip (rev s)).

Definition strip (s : str) : str := rstrip (lstrip s).

(** The truth value of a [str]: it is not empty. *)
Definition str_bool (s : str) : bool :=
  match s with
  | [] => false
  | _ :: _ => true
  end.

(** [[l.strip() for l in fh if l.strip()]], where [fh] yields the lines of
    the file. *)
Fixpoint load_targets_from_file (fh : list str) : list str :=
  match fh with
  | [] => []
  | l :: rest =>
      if str_bool (strip l) then strip l :: load_targets_from_file rest
      else load_targets_from_file rest
  end.

(** ** main *)

(** [range(start, stop, step)]; it raises [ValueError] when [step] is 0. *)
Definition py_range (start stop step : Z) : result (list Z) :=
  if step =? 0 then Throw (OtherException "ValueError")
  else
    let n :=
      if 0 <? step then
        (if start <? stop then (stop - start - 1) / step + 1 else 0)
      else
        (if stop <? start then (start - stop - 1) / (- step) + 1 else 0) in
    Return (map (fun k => start + Z.of_nat k * step) (seq 0 (Z.to_nat n))).

(** [l[lo:hi]] *)
Definition py_slice {A : Type} (l : list A) (lo hi : Z) : list A :=
  let len := Z.of_nat (List.length l) in
  let clip i := if i <? 0 then Z.max (i + len) 0 else Z.min i len in
  firstn (Z.to_nat (clip hi - clip lo)) (skipn (Z.to_nat (clip lo)) l).

(** What is outside the program during a run: the pool of each chunk and the
    draws of the main thread. *)
Record Run : Type := mkRun {
  pool_of : nat -> Pool;
  main_random : nat -> Q
}.

Definition tag (i : nat) (evs : list main_event) : list (nat * main_event) :=
  map (fun e => (i, e)) evs.

(** The [for i, chunk_start in enumerate(range(...))] loop of [main]; every
    event is recorded with the [i] of the iteration it happens in. *)
Fixpoint main_loop (session : Session) (targets : list str) (action : string)
    (concurrency : Z) (dry_run : bool) (run : Run) (i : nat) (starts : list Z)
    : result unit * list (nat * main_event) :=
  match starts with
  | [] => (Return tt, [])
  | chunk_start :: rest =>
      let chunk := py_slice targets chunk_start (chunk_start + concurrency) in
      match process_targets session chunk action concurrency dry_run (pool_of run i) with
      | (Throw e, evs) => (Throw e, tag i evs)
      | (Return _, evs) =>
          let sleep_time := uniform 2 6 (main_random run i) in
          let (r, later) :=
            main_loop session targets action concurrency dry_run run (S i) rest in
          (r, tag i (evs ++ [Logged DEBUG "Sleeping between batches: %.2fs";
                             Slept sleep_time]) ++ later)
      end
  end.

(** The parsed command line ([parse_args]). *)
Record Namespace : Type := mkNamespace {
  targets_file : str;
  action : string;
  concurrency : Z;
  dry_run : bool;
  proxy : option str
}.

(** [main], given the lines of [args.targets_file] and the session that
    [create_session] builds.  It yields what the main thread does before the
    loop, and what it does in the loop. *)
Definition main (args : Namespace) (fh : list str) (session : Session) (run : Run)
    : result unit * (list main_event * list (nat * main_event)) :=
  let targets := load_targets_from_file fh in
  let before :=
    [Logged INFO "Iniciando run: action=%s targets=%d concurrency=%d dry_run=%s"] in
  match py_range 0 (Z.of_nat (List.length targets)) (concurrency args) with
  | Throw e => (Throw e, (before, []))
  | Return starts =>
      let (r, evs) :=
        main_loop session targets (action args) (concurrency args) (dry_run args)
          run 0 starts in
      (r, (before, evs))
  end.

(** ** Statements and sample inputs *)

(** The duration [exponential_backoff_sleep] hands to [time.sleep] when
    [random.random()] returns [r]. *)
Definition backoff_duration (base : Q) (attempt : Z) (jitter : Q) (r : Q) : Q :=
  py_max0 (base * 2 ^ attempt * (1 + uniform (- jitter) jitter r))%Q.


(** A session that gives every call the same outcome. *)
Definition constant_session (a : reply) : Session :=
  {| answer := fun _ _ _ _ => a |}.

(** A generator whose every draw is [r]. *)
Definition constant_draws (r : Q) : nat -> Q := fun _ => r.



(** The values of the futures that returned, in the order given. *)
Definition returned_values (done : list Future) : list bool :=
  flat_map (fun f => match outcome f with
                     | Return b => [b]
                     | Throw _ => []
                     end) done.

Definition is_exception_record (e : main_event) : bool :=
  match e with
  | Logged EXCEPTION _ => true
  | _ => false
  end.

(** A session that raises [ValueError] under every call of the task that
    runs as [t] and answers 200 to the others. *)
Definition failing_for (t : nat) : Session :=
  {| answer := fun th _ _ _ =>
       if (th =? t)%nat then Fails (OtherException "ValueError")
       else Responds (mkResponse 200 true) |}.

(** A pool that runs the i-th task as [i] and completes the tasks in the
    order of submission. *)
Definition in_order : Pool :=
  {| task_of := fun i => i;
     random_of := fun _ => constant_draws (1 # 2);
     completed_at := fun i => i |}.

(** A pool that completes the tasks in the reverse order. *)
Definition last_first : Pool :=
  {| task_of := fun i => i;
     random_of := fun _ => constant_draws (1 # 2);
     completed_at := fun i => (100 - i)%nat |}.

Definition five_targets : list str :=
  map of_string ["https://example.org/p/1"; "https://example.org/p/2";
                 "https://example.org/p/3"; "https://example.org/p/4";
                 "https://example.org/p/5"]%string.

(** A line that is not blank once stripped. *)
Definition nonblank (l : str) : bool := str_bool (strip l).

(** A string made of whitespace only (the empty string is one). *)
Definition whitespace_only (l : str) : bool := forallb isspace l.

(** The chunk that iteration [i] of [main] slices out of the targets. *)
Definition chunk_of (targets : list str) (concurrency : Z) (i : nat) : list str :=
  py_slice targets (Z.of_nat i * concurrency) (Z.of_nat i * concurrency + concurrency).

(** What the main thread does in iteration [i]: the events of
    [process_targets] on the chunk, then the sleep between batches. *)
Definition batch_events (session : Session) (targets : list str) (action : string)
    (concurrency : Z) (dry_run : bool) (run : Run) (i : nat) : list (nat * main_event) :=
  tag i (snd (process_targets session (chunk_of targets concurrency i) action
                concurrency dry_run (pool_of run i))
         ++ [Logged DEBUG "Sleeping between batches: %.2fs";
             Slept (uniform 2 6 (main_random run i))]).

(** A run whose pools complete the tasks in reverse order and whose draws
    are all [r]. *)
Definition steady_run (r : Q) : Run :=
  {| pool_of := fun _ => last_first; main_random := constant_draws r |}.

Definition like_args (c : Z) (dry : bool) : Namespace :=
  {| targets_file := of_string "targets.txt"; action := "like"; concurrency := c;
     dry_run := dry; proxy := None |}.

(** A session whose first [n] calls of each task fail with a
    [requests.RequestException] and whose later calls answer [r]. *)
Definition fails_first (n : nat) (r : Response) : Session :=
  {| answer := fun _ k _ _ =>
       if (k <? n)%nat then Fails RequestException else Responds r |}.


(** ** Further statements *)

(** An outcome of [session.request] after which the loop of [safe_request]
    goes on: a rate-limit status, or a [requests.RequestException]. *)
Definition retryable (a : reply) : bool :=
  match a with
  | Responds r => rate_limited r
  | Fails e => is_RequestException e
  end.

(** The [base] that [safe_request] passes to [exponential_backoff_sleep]
    after such an outcome. *)
Definition backoff_base (a : reply) : Q :=
  match a with
  | Responds _ => 2
  | Fails _ => 1
  end.

(** The durations of the sleeps of a trace, oldest first, and their sum. *)
Definition sleeps (tr : list event) : list Q :=
  flat_map (fun e => match e with
                     | EvSleep d => [d]
                     | _ => []
                     end) tr.

Definition Qsum (l : list Q) : Q := fold_right Qplus 0%Q l.

Definition total_sleep (tr : list event) : Q := Qsum (sleeps tr).

(** What [n] consecutive retried attempts, the first numbered [attempt],
    add to the world [w]: [tr] holds [n] requests of [method url] and [n]
    sleeps, the k-th with the base of its outcome, the exponent
    [attempt + k] and the k-th draw. *)
Definition retried (session : Session) (method : string) (url : str)
    (attempt : Z) (n : nat) (w w' : World) (tr : list event) : Prop :=
  tid w' = tid w
  /\ rng w' = rng w
  /\ calls w' = (calls w + n)%nat
  /\ draws w' = (draws w + n)%nat
  /\ trace w' = trace w ++ tr
  /\ request_calls tr = n
  /\ Forall (fun e => is_request e = true -> e = EvRequest method url) tr
  /\ sleeps tr
     = map (fun k =>
              backoff_duration
                (backoff_base (answer session (tid w) (calls w + k) method url))
                (attempt + Z.of_nat k) (1 # 2) (rng w (draws w + k)))
         (seq 0 n).

(** Two worlds that differ at most in what has been recorded so far. *)
Definition same_state (w1 w2 : World) : Prop :=
  tid w1 = tid w2 /\ rng w1 = rng w2 /\ draws w1 = draws w2 /\ calls w1 = calls w2.

(** A trace without its log records: the requests and the sleeps. *)
Definition without_logs (tr : list event) : list event :=
  filter (fun e => is_request e || is_sleep e) tr.

(** The futures that [as_completed] yielded, in the order of a trace of the
    main thread. *)
Definition completed_futures (evs : list main_event) : list Future :=
  flat_map (fun e => match e with
                     | Completed f => [f]
                     | _ => []
                     end) evs.

(** The futures submitted, in the order of a trace of the main thread. *)
Definition submitted_futures (evs : list main_event) : list Future :=
  flat_map (fun e => match e with
                     | Submitted f => [f]
                     | _ => []
                     end) evs.

(** The durations of the sleeps of the main thread, oldest first. *)
Definition main_sleeps (evs : list main_event) : list Q :=
  flat_map (fun e => match e with
                     | Slept d => [d]
                     | _ => []
                     end) evs.

(** A target as the loader leaves it: not empty, no whitespace at either
    end. *)
Definition clean (t : str) : Prop := t <> [] /\ lstrip t = t /\ rstrip t = t.
(** * Properties *)

(** ** Traces *)

Lemma request_calls_app (tr1 tr2 : list event) :
  request_calls (tr1 ++ tr2) = (request_calls tr1 + request_calls tr2)%nat.
Proof. unfold request_calls. now rewrite filter_app, length_app. Qed.

Lemma sleep_calls_app (tr1 tr2 : list event) :
  sleep_calls (tr1 ++ tr2) = (sleep_calls tr1 + sleep_calls tr2)%nat.
Proof. unfold sleep_calls. now rewrite filter_app, length_app. Qed.

(** ** The retry loop *)


Lemma exponential_backoff_sleep_run (base : Q) (attempt : Z) (jitter : Q) (w : World) :
  exponential_backoff_sleep base attempt jitter w =
  (Return tt,
   {| tid := tid w; rng := rng w; draws := S (draws w); calls := calls w;
      trace := trace w ++ [EvLog DEBUG "Backoff sleep: %.2fs (attempt=%d)";
                           EvSleep (backoff_duration base attempt jitter (rng w (draws w)))] |}).
Proof.
  unfold exponential_backoff_sleep, bind, random_uniform, log, time_sleep, emit; cbn.
  now rewrite <- app_assoc.
Qed.

(** The loop, one test of [attempt < max_attempts] at a time. *)
Lemma safe_request_from_eq session method url max_attempts attempt w :
  safe_request_from session method url max_attempts attempt w =
  if attempt <? max_attempts then
    match attempt_once session method url attempt w with
    | (Return (Returned resp), w') => (Return (Some resp), w')
    | (Return Again, w') =>
        safe_request_from session method url max_attempts (attempt + 1) w'
    | (Throw e, w') => (Throw e, w')
    end
  else (Return None, emit (EvLog ERROR "Max attempts reached for %s %s") w).
Proof.
  simp safe_request_from.
  destruct (Z_lt_dec attempt max_attempts) as [Hlt | Hge]; cbn.
  - apply Z.ltb_lt in Hlt as Hb. rewrite Hb.
    destruct (attempt_once session method url attempt w) as [[[resp | ] | e] w'];
      now simp safe_request_from.
  - apply Z.ltb_nlt in Hge. now rewrite Hge.
Qed.

(** A pass that meets a rate-limit status: request, two log records, one
    backoff with base 2, and on to [attempt += 1]. *)
Lemma attempt_once_rate_limited session method url attempt w r :
  answer session (tid w) (calls w) method url = Responds r ->
  rate_limited r = true ->
  attempt_once session method url attempt w =
  (Return Again,
   {| tid := tid w; rng := rng w; draws := S (draws w); calls := S (calls w);
      trace := trace w ++
        [EvRequest method url;
         EvLog DEBUG "Request %s %s -> %s";
         EvLog WARNING "Rate limited (status=%s). Backing off...";
         EvLog DEBUG "Backoff sleep: %.2fs (attempt=%d)";
         EvSleep (backoff_duration 2 attempt (1 # 2) (rng w (draws w)))] |}).
Proof.
  intros Hans Hrl.
  unfold attempt_once, try_except_RequestException, bind at 1, session_request.
  rewrite Hans. unfold bind at 1, log at 1. rewrite Hrl.
  unfold bind at 1, log at 1. unfold bind. rewrite exponential_backoff_sleep_run.
  unfold ret, emit; cbn. now rewrite <- !app_assoc.
Qed.

(** A pass that meets any other status returns the response. *)
Lemma attempt_once_response session method url attempt w r :
  answer session (tid w) (calls w) method url = Responds r ->
  rate_limited r = false ->
  attempt_once session method url attempt w =
  (Return (Returned r),
   {| tid := tid w; rng := rng w; draws := draws w; calls := S (calls w);
      trace := trace w ++ [EvRequest method url; EvLog DEBUG "Request %s %s -> %s"] |}).
Proof.
  intros Hans Hrl.
  unfold attempt_once, try_except_RequestException, bind at 1, session_request.
  rewrite Hans. unfold bind, log, ret, emit; cbn. rewrite Hrl.
  now rewrite <- !app_assoc.
Qed.

Lemma rate_limited_iff (r : Response) :
  rate_limited r = true <-> status_code r = 429 \/ status_code r = 420.
Proof. unfold rate_limited. rewrite orb_true_iff, !Z.eqb_eq. tauto. Qed.






(** C2.  When the first attempt yields a response whose status is neither
    429 nor 420, [safe_request] returns that response after exactly one call
    of [session.request], whatever the status says otherwise; it does not
    sleep. *)
Theorem safe_request_first_response :
  forall (session : Session) (method : string) (url : str) (max_attempts : Z)
         (w : World) (r : Response),
    1 <= max_attempts ->
    answer session (tid w) (calls w) method url = Responds r ->
    status_code r <> 429 ->
    status_code r <> 420 ->
    exists w' : World,
      safe_request session method url max_attempts w = (Return (Some r), w')
      /\ trace w' = trace w ++ [EvRequest method url; EvLog DEBUG "Request %s %s -> %s"]
      /\ request_calls (trace w') = S (request_calls (trace w))
      /\ sleep_calls (trace w') = sleep_calls (trace w)
      /\ calls w' = S (calls w).
Proof.
  intros session method url max_attempts w r Hmax Hans H429 H420.
  assert (Hrl : rate_limited r = false).
  { destruct (rate_limited r) eqn:E; [| reflexivity].
    apply rate_limited_iff in E. tauto. }
  unfold safe_request. rewrite safe_request_from_eq.
  assert (Hb : (0 <? max_attempts) = true) by (apply Z.ltb_lt; lia).
  rewrite Hb, (attempt_once_response _ _ _ 0 _ Hans Hrl).
  eexists. split; [reflexivity |]. cbn [trace calls draws emit].
  rewrite request_calls_app, sleep_calls_app. cbn.
  repeat split; auto; lia.
Qed.

Lemma safe_request_first_response_witness :
  exists w' : World,
    safe_request (constant_session (Responds (mkResponse 404 false)))
      "POST" (of_string "https://example.org/p/1") 5 (new_world 0 (constant_draws (1 # 2)))
    = (Return (Some (mkResponse 404 false)), w')
    /\ trace w' = trace (new_world 0 (constant_draws (1 # 2)))
                  ++ [EvRequest "POST" (of_string "https://example.org/p/1");
                      EvLog DEBUG "Request %s %s -> %s"]
    /\ request_calls (trace w') = S (request_calls (trace (new_world 0 (constant_draws (1 # 2)))))
    /\ sleep_calls (trace w') = sleep_calls (trace (new_world 0 (constant_draws (1 # 2))))
    /\ calls w' = S (calls (new_world 0 (constant_draws (1 # 2)))).
Proof.
  apply (@safe_request_first_response
           (constant_session (Responds (mkResponse 404 false)))
           "POST" (of_string "https://example.org/p/1") 5 (new_world 0 (constant_draws (1 # 2)))
           (mkResponse 404 false)).
  - lia.
  - reflexivity.
  - cbn; lia.
  - cbn; lia.
Defined.

(** C10.  With [max_attempts <= 0] the loop body is never entered:
    [safe_request] returns [None] at once, without a request, a draw, a
    sleep or an exception; it only logs the error record. *)
Theorem safe_request_no_attempt :
  forall (session : Session) (method : string) (url : str) (max_attempts : Z) (w : World),
    max_attempts <= 0 ->
    exists w' : World,
      safe_request session method url max_attempts w = (Return None, w')
      /\ trace w' = trace w ++ [EvLog ERROR "Max attempts reached for %s %s"]
      /\ request_calls (trace w') = request_calls (trace w)
      /\ sleep_calls (trace w') = sleep_calls (trace w)
      /\ calls w' = calls w
      /\ draws w' = draws w.
Proof.
  intros session method url max_attempts w Hmax.
  unfold safe_request. rewrite safe_request_from_eq.
  assert (Hb : (0 <? max_attempts) = false) by (apply Z.ltb_ge; lia).
  rewrite Hb. eexists. split; [reflexivity |]. cbn [trace calls draws emit].
  rewrite request_calls_app, sleep_calls_app. cbn.
  repeat split; auto; lia.
Qed.

Lemma safe_request_no_attempt_witness :
  exists w' : World,
    safe_request (constant_session (Responds (mkResponse 200 true)))
      "POST" (of_string "https://example.org/p/1") (-2) (new_world 0 (constant_draws (1 # 2)))
    = (Return None, w')
    /\ trace w' = trace (new_world 0 (constant_draws (1 # 2)))
                  ++ [EvLog ERROR "Max attempts reached for %s %s"]
    /\ request_calls (trace w') = request_calls (trace (new_world 0 (constant_draws (1 # 2))))
    /\ sleep_calls (trace w') = sleep_calls (trace (new_world 0 (constant_draws (1 # 2))))
    /\ calls w' = calls (new_world 0 (constant_draws (1 # 2)))
    /\ draws w' = draws (new_world 0 (constant_draws (1 # 2))).
Proof.
  apply (@safe_request_no_attempt
           (constant_session (Responds (mkResponse 200 true)))
           "POST" (of_string "https://example.org/p/1") (-2) (new_world 0 (constant_draws (1 # 2)))).
  lia.
Defined.

(** ** The backoff delay *)

Lemma py_max0_Qmax (x : Q) : (py_max0 x == Qmax 0 x)%Q.
Proof.
  unfold py_max0. destruct (Qlt_le_dec 0 x) as [H | H].
  - symmetry. apply Q.max_r. now apply Qlt_le_weak.
  - symmetry. now apply Q.max_l.
Qed.

Lemma backoff_scale_pos (base : Q) (attempt : Z) :
  (0 < base)%Q -> (0 < base * 2 ^ attempt)%Q.
Proof.
  intros Hb. apply Qmult_lt_0_compat; [exact Hb |].
  apply Qpower_0_lt. reflexivity.
Qed.





(** ** The action handlers *)








(** C5.  With [dry_run] true, [like_post] and [follow_user] return true
    whatever the target and the session; they log twice and do nothing else:
    [safe_request] is not entered and no call of [session.request] is
    made. *)
Theorem handlers_dry_run :
  forall (session : Session) (target : str) (w : World),
    (like_post session target true w =
       (Return true,
        emit (EvLog INFO "[dry-run] Simulando like a %s") (emit (EvLog INFO "Like post: %s") w))
     /\ request_calls (trace (snd (like_post session target true w))) = request_calls (trace w)
     /\ calls (snd (like_post session target true w)) = calls w)
    /\ (follow_user session target true w =
          (Return true,
           emit (EvLog INFO "[dry-run] Simulando follow a %s")
             (emit (EvLog INFO "Follow user: %s") w))
        /\ request_calls (trace (snd (follow_user session target true w))) = request_calls (trace w)
        /\ calls (snd (follow_user session target true w)) = calls w).
Proof.
  intros session target w.
  assert (Hl : like_post session target true w =
       (Return true,
        emit (EvLog INFO "[dry-run] Simulando like a %s") (emit (EvLog INFO "Like post: %s") w)))
    by reflexivity.
  assert (Hf : follow_user session target true w =
       (Return true,
        emit (EvLog INFO "[dry-run] Simulando follow a %s")
          (emit (EvLog INFO "Follow user: %s") w)))
    by reflexivity.
  rewrite Hl, Hf. cbn [snd emit trace calls].
  rewrite !request_calls_app. cbn. repeat split; lia.
Qed.

(** ** The dispatcher *)


(** The futures are submitted for the targets, in their order. *)
Lemma submit_all_targets session action dry_run pool :
  action = "like"%string \/ action = "follow"%string ->
  forall targets futures,
    map target (submit_all session action dry_run pool targets futures)
    = map target futures ++ targets.
Proof.
  intros Hact targets. induction targets as [| t rest IH]; intros futures;
    cbn [submit_all].
  - now rewrite app_nil_r.
  - assert (Htarget : forall i task, target (submit pool i t task) = t).
    { intros i task. unfold submit.
      now destruct (task (new_world (task_of pool i) (random_of pool i))). }
    destruct Hact as [-> | ->]; cbn [String.eqb Ascii.eqb Bool.eqb];
      rewrite IH, map_app; cbn [map]; rewrite Htarget, <- app_assoc; reflexivity.
Qed.


Lemma insert_completed_perm pool f done :
  Permutation (insert_completed pool f done) (f :: done).
Proof.
  induction done as [| g rest IH]; cbn [insert_completed].
  - apply Permutation_refl.
  - destruct (completed_at pool (index f) <? completed_at pool (index g))%nat.
    + apply Permutation_refl.
    + eapply perm_trans; [apply perm_skip, IH | apply perm_swap].
Qed.

(** [as_completed] yields every future once. *)
Lemma as_completed_perm pool futures :
  Permutation (as_completed pool futures) futures.
Proof.
  induction futures as [| f rest IH]; cbn.
  - apply perm_nil.
  - eapply perm_trans; [apply insert_completed_perm | apply perm_skip, IH].
Qed.

Lemma collect_spec done :
  forall results,
    fst (collect done results) = results ++ returned_values done.
Proof.
  induction done as [| f rest IH]; intros results; cbn.
  - now rewrite app_nil_r.
  - destruct (outcome f) as [b | e].
    + specialize (IH (results ++ [b])).
      destruct (collect rest (results ++ [b])) as [rs evs]; cbn in *.
      now rewrite IH, <- app_assoc.
    + specialize (IH results).
      destruct (collect rest results) as [rs evs]; cbn in *. exact IH.
Qed.

Lemma collect_events done :
  forall results,
    (forall f, In f done -> In (Completed f) (snd (collect done results)))
    /\ List.length (filter is_exception_record (snd (collect done results)))
       = List.length (filter (fun f => raises (outcome f)) done)
    /\ (forall f, In f done -> raises (outcome f) = true ->
          In (Logged EXCEPTION "Error en tarea: %s") (snd (collect done results))).
Proof.
  induction done as [| f rest IH]; intros results.
  - cbn. repeat split; auto; contradiction.
  - cbn [collect]. destruct (outcome f) as [b | e] eqn:Hout.
    + destruct (IH (results ++ [b])) as (Hc & Hn & Hl).
      destruct (collect rest (results ++ [b])) as [rs evs]; cbn in *.
      rewrite Hout; cbn. split; [| split].
      * intros g [-> | Hg]; [now left | right; auto].
      * exact Hn.
      * intros g [-> | Hg] Hr; [rewrite Hout in Hr; discriminate | right; eauto].
    + destruct (IH results) as (Hc & Hn & Hl).
      destruct (collect rest results) as [rs evs]; cbn in *.
      rewrite Hout; cbn. split; [| split].
      * intros g [-> | Hg]; [now left | right; right; auto].
      * now rewrite Hn.
      * intros g _ _. right. now left.
Qed.

Lemma returned_values_length done :
  List.length (returned_values done)
  = List.length (filter (fun f => negb (raises (outcome f))) done).
Proof.
  unfold returned_values.
  induction done as [| f rest IH]; cbn; [reflexivity |].
  destruct (outcome f); cbn; now rewrite ?IH.
Qed.



Lemma filter_some_length {A : Type} (p : A -> bool) (l : list A) (x : A) :
  In x l -> p x = false -> (List.length (filter p l) < List.length l)%nat.
Proof.
  induction l as [| y l IH]; cbn; [contradiction |].
  intros [-> | Hin] Hx.
  - rewrite Hx. pose proof (filter_length_le p l). lia.
  - specialize (IH Hin Hx). destruct (p y); cbn; lia.
Qed.

Lemma filter_length_perm {A : Type} (p : A -> bool) (l l' : list A) :
  Permutation l l' -> List.length (filter p l) = List.length (filter p l').
Proof.
  induction 1; cbn; auto.
  - destruct (p x); cbn; auto.
  - destruct (p x), (p y); cbn; auto.
  - congruence.
Qed.

(** What [process_targets] returns with a pool of at least one worker. *)
Lemma process_targets_run session targets action concurrency dry_run pool :
  1 <= concurrency ->
  exists evs,
    process_targets session targets action concurrency dry_run pool
    = (Return (returned_values
                 (as_completed pool (submit_all session action dry_run pool targets []))),
       map Submitted (submit_all session action dry_run pool targets []) ++ evs)
    /\ evs = snd (collect (as_completed pool
                             (submit_all session action dry_run pool targets [])) []).
Proof.
  intros Hc. unfold process_targets.
  assert (Hb : (concurrency <=? 0) = false) by (apply Z.leb_gt; lia).
  rewrite Hb.
  set (futures := submit_all session action dry_run pool targets []).
  pose proof (collect_spec (as_completed pool futures) []) as Hres.
  destruct (collect (as_completed pool futures) []) as [rs evs]; cbn in *.
  exists evs. now rewrite Hres.
Qed.



(** C7.  When a submitted task raises, [process_targets] still returns: the
    exception is caught and logged with [logger.exception], and the task
    contributes nothing to the results (no [False] is recorded for it), which
    are the values of the tasks that returned, in completion order; so there
    are fewer results than submitted tasks, by the number of tasks that
    raised. *)
Theorem process_targets_drops_raising_task :
  forall (session : Session) (targets : list str) (action : string)
         (concurrency : Z) (dry_run : bool) (pool : Pool) (f : Future),
    1 <= concurrency ->
    In f (submit_all session action dry_run pool targets []) ->
    raises (outcome f) = true ->
    exists (results : list bool) (evs : list main_event),
      process_targets session targets action concurrency dry_run pool = (Return results, evs)
      /\ results = returned_values
                     (as_completed pool (submit_all session action dry_run pool targets []))
      /\ In (Completed f) evs
      /\ In (Logged EXCEPTION "Error en tarea: %s") evs
      /\ (List.length results + List.length (filter is_exception_record evs))%nat
         = List.length (submit_all session action dry_run pool targets [])
      /\ (List.length results
          < List.length (submit_all session action dry_run pool targets []))%nat.
Proof.
  intros session targets action concurrency dry_run pool f Hc Hin Hraise.
  destruct (process_targets_run session targets action dry_run pool Hc) as (evs & Hrun & Hevs).
  set (futures := submit_all session action dry_run pool targets []) in *.
  pose proof (as_completed_perm pool futures) as Hperm.
  destruct (collect_events (as_completed pool futures) []) as (Hdone & Hcount & Hlog).
  rewrite <- Hevs in Hdone, Hcount, Hlog.
  assert (Hin' : In f (as_completed pool futures))
    by (eapply Permutation_in; [apply Permutation_sym, Hperm | exact Hin]).
  eexists. exists (map Submitted futures ++ evs).
  split; [exact Hrun |]. split; [reflexivity |].
  split; [apply in_or_app; right; auto |].
  split; [apply in_or_app; right; eauto |].
  rewrite returned_values_length, !(filter_length_perm _ Hperm).
  split.
  - rewrite filter_app, length_app.
    assert (Hsub : filter is_exception_record (map Submitted futures) = []).
    { clear. induction futures; cbn; auto. }
    rewrite Hsub, Hcount, (filter_length_perm _ Hperm). cbn.
    clear. induction futures as [| g rest IH]; cbn; [reflexivity |].
    destruct (raises (outcome g)); cbn; lia.
  - apply filter_some_length with (x := f); [exact Hin | now rewrite Hraise].
Qed.

Lemma process_targets_drops_raising_task_witness :
  exists f : Future,
    1 <= 2
    /\ In f (submit_all (failing_for 1) "like" false in_order five_targets [])
    /\ raises (outcome f) = true
    /\ exists (results : list bool) (evs : list main_event),
        process_targets (failing_for 1) five_targets "like" 2 false in_order
        = (Return results, evs)
        /\ results = returned_values
                       (as_completed in_order
                          (submit_all (failing_for 1) "like" false in_order five_targets []))
        /\ In (Completed f) evs
        /\ In (Logged EXCEPTION "Error en tarea: %s") evs
        /\ (List.length results + List.length (filter is_exception_record evs))%nat
           = List.length (submit_all (failing_for 1) "like" false in_order five_targets [])
        /\ (List.length results
            < List.length (submit_all (failing_for 1) "like" false in_order five_targets []))%nat.
Proof.
  exists (submit in_order 1 (of_string "https://example.org/p/2")
            (like_post (failing_for 1) (of_string "https://example.org/p/2") false)).
  assert (Hin : In (submit in_order 1 (of_string "https://example.org/p/2")
                      (like_post (failing_for 1) (of_string "https://example.org/p/2") false))
                   (submit_all (failing_for 1) "like" false in_order five_targets [])).
  { right. left. reflexivity. }
  assert (Hr : raises (outcome (submit in_order 1 (of_string "https://example.org/p/2")
                      (like_post (failing_for 1) (of_string "https://example.org/p/2") false)))
               = true) by (vm_compute; reflexivity).
  split; [lia |]. split; [exact Hin |]. split; [exact Hr |].
  apply (@process_targets_drops_raising_task (failing_for 1) five_targets "like" 2 false
           in_order _ ltac:(lia) Hin Hr).
Defined.

(** ** The target file *)

Lemma lstrip_head (s : str) :
  lstrip s = [] \/ exists c rest, lstrip s = c :: rest /\ isspace c = false.
Proof.
  induction s as [| c rest IH]; cbn; [now left |].
  destruct (isspace c) eqn:Hc; [exact IH |]. right. now exists c, rest.
Qed.

Lemma lstrip_suffix (s : str) :
  exists spaces, s = spaces ++ lstrip s /\ forallb isspace spaces = true.
Proof.
  induction s as [| c rest (spaces & Heq & Hsp)]; cbn.
  - now exists [].
  - destruct (isspace c) eqn:Hc.
    + exists (c :: spaces). cbn. rewrite Hc, Hsp. split; [now f_equal | reflexivity].
    + now exists [].
Qed.

Lemma lstrip_fixed (c : char) (rest : str) :
  isspace c = false -> lstrip (c :: rest) = c :: rest.
Proof. intros Hc. cbn. now rewrite Hc. Qed.

Lemma lstrip_nil_iff (s : str) : lstrip s = [] <-> whitespace_only s = true.
Proof.
  unfold whitespace_only. induction s as [| c rest IH]; cbn; [tauto |].
  destruct (isspace c); cbn; [exact IH |]. split; discriminate.
Qed.

Lemma strip_nil_iff (l : str) : strip l = [] <-> whitespace_only l = true.
Proof.
  unfold strip, rstrip. split.
  - intros H. apply (f_equal (@rev char)) in H. rewrite rev_involutive in H. cbn in H.
    apply lstrip_nil_iff in H. unfold whitespace_only in H.
    destruct (lstrip_head l) as [Hl | (c & rest & Hl & Hc)].
    + now apply lstrip_nil_iff.
    + rewrite Hl in H. rewrite forallb_forall in H.
      specialize (H c). rewrite Hc in H. discriminate H.
      apply in_rev. rewrite rev_involutive. now left.
  - intros H. apply lstrip_nil_iff in H. now rewrite H.
Qed.

Lemma nonblank_iff (l : str) : nonblank l = negb (whitespace_only l).
Proof.
  unfold nonblank. destruct (whitespace_only l) eqn:Hw; cbn.
  - apply strip_nil_iff in Hw. now rewrite Hw.
  - destruct (strip l) eqn:Hs; [| reflexivity].
    apply strip_nil_iff in Hs. congruence.
Qed.

(** Stripping leaves nothing to strip on either side. *)
Lemma strip_stripped (l : str) :
  lstrip (strip l) = strip l /\ rstrip (strip l) = strip l.
Proof.
  unfold strip, rstrip.
  set (a := lstrip l). set (b := lstrip (rev a)).
  assert (Hb : lstrip b = b).
  { subst b. destruct (lstrip_head (rev a)) as [-> | (c & rest & -> & Hc)];
      [reflexivity | now apply lstrip_fixed]. }
  split.
  - destruct (lstrip_suffix (rev a)) as (spaces & Heq & _). fold b in Heq.
    apply (f_equal (@rev char)) in Heq. rewrite rev_involutive, rev_app_distr in Heq.
    destruct (rev b) as [| c rest] eqn:Hrb; [reflexivity |].
    apply lstrip_fixed.
    subst a. destruct (lstrip_head l) as [Hl | (c' & rest' & Hl & Hc')].
    + rewrite Hl in Heq. discriminate Heq.
    + rewrite Hl in Heq. cbn in Heq. now injection Heq as -> _.
  - now rewrite rev_involutive, Hb.
Qed.

Lemma load_targets_from_file_filter (fh : list str) :
  load_targets_from_file fh = map strip (filter nonblank fh).
Proof.
  induction fh as [| l rest IH]; cbn; [reflexivity |].
  unfold nonblank at 1. destruct (str_bool (strip l)); cbn; now rewrite IH.
Qed.

(** C9.  [load_targets_from_file] returns the stripped form of the lines that
    are not blank once stripped, in the order of the file, and nothing else:
    as many entries as there are such lines.  The lines left out are the
    empty and the whitespace-only ones; every entry is non-empty and has no
    whitespace left on either side. *)
Theorem load_targets_from_file_nonblank_lines :
  forall fh : list str,
    load_targets_from_file fh = map strip (filter nonblank fh)
    /\ List.length (load_targets_from_file fh) = List.length (filter nonblank fh)
    /\ (forall l, nonblank l = negb (whitespace_only l))
    /\ Forall (fun t => t <> [] /\ lstrip t = t /\ rstrip t = t)
         (load_targets_from_file fh).
Proof.
  intros fh. rewrite load_targets_from_file_filter.
  split; [reflexivity |]. split; [apply length_map |].
  split; [exact nonblank_iff |].
  apply Forall_forall. intros t Ht.
  apply in_map_iff in Ht as (l & <- & Hl).
  apply filter_In in Hl as [_ Hnb].
  split; [| apply strip_stripped].
  unfold nonblank in Hnb. now destruct (strip l).
Qed.

(** ** The run *)

Lemma firstn_add {A : Type} (a b : nat) (l : list A) :
  firstn a l ++ firstn b (skipn a l) = firstn (a + b) l.
Proof.
  revert l. induction a as [| a IH]; intros l; cbn; [reflexivity |].
  destruct l as [| x l]; cbn.
  - now rewrite firstn_nil.
  - now rewrite IH.
Qed.

Lemma concat_chunks {A : Type} (c : nat) (l : list A) (m : nat) :
  concat (map (fun i => firstn c (skipn (i * c) l)) (seq 0 m)) = firstn (m * c) l.
Proof.
  induction m as [| m IH]; [reflexivity |].
  rewrite seq_S, map_app, concat_app, IH. cbn [map concat Nat.add].
  rewrite app_nil_r, firstn_add. f_equal. lia.
Qed.

Lemma chunk_length {A : Type} (c : nat) (l : list A) (i : nat) :
  List.length (firstn c (skipn (i * c) l)) = Nat.min c (List.length l - i * c).
Proof. now rewrite length_firstn, length_skipn. Qed.

(** A slice of [main] is the next [concurrency] targets, or what is left. *)
Lemma chunk_of_firstn (targets : list str) (concurrency : Z) (i : nat) :
  1 <= concurrency ->
  chunk_of targets concurrency i
  = firstn (Z.to_nat concurrency) (skipn (i * Z.to_nat concurrency) targets).
Proof.
  intros Hc. unfold chunk_of, py_slice.
  set (len := Z.of_nat (List.length targets)).
  set (lo := Z.of_nat i * concurrency).
  assert (Hlo : 0 <= lo) by (subst lo; nia).
  assert (Hb1 : (lo <? 0) = false) by (apply Z.ltb_ge; lia).
  assert (Hb2 : (lo + concurrency <? 0) = false) by (apply Z.ltb_ge; lia).
  rewrite Hb1, Hb2.
  assert (Hnat : (i * Z.to_nat concurrency)%nat = Z.to_nat lo).
  { subst lo. rewrite Z2Nat.inj_mul, Nat2Z.id; lia. }
  rewrite Hnat.
  destruct (Z_lt_le_dec lo len) as [Hin | Hout].
  - rewrite (Z.min_l lo len) by lia.
    destruct (Z_le_gt_dec (lo + concurrency) len) as [Hfull | Hpart].
    + rewrite Z.min_l by lia. f_equal. lia.
    + rewrite Z.min_r by lia.
      rewrite !firstn_all2; auto; rewrite length_skipn; subst len; lia.
  - rewrite !Z.min_r by lia. rewrite Z.sub_diag. cbn [Z.to_nat firstn].
    rewrite skipn_all2 by (subst len; lia). now rewrite firstn_nil.
Qed.

Lemma process_targets_returns session targets action concurrency dry_run pool :
  1 <= concurrency ->
  exists results,
    process_targets session targets action concurrency dry_run pool
    = (Return results,
       snd (process_targets session targets action concurrency dry_run pool)).
Proof.
  intros Hc.
  destruct (process_targets_run session targets action dry_run pool Hc) as (evs & Hrun & _).
  rewrite Hrun. eexists. reflexivity.
Qed.

(** The loop of [main] performs the batches one after the other. *)
Lemma main_loop_batches session targets action concurrency dry_run run :
  1 <= concurrency ->
  forall m i,
    main_loop session targets action concurrency dry_run run i
      (map (fun k => 0 + Z.of_nat k * concurrency) (seq i m))
    = (Return tt,
       flat_map (batch_events session targets action concurrency dry_run run) (seq i m)).
Proof.
  intros Hc. induction m as [| m IH]; intros i; [reflexivity |].
  cbn [seq map main_loop flat_map]. rewrite IH.
  change (0 + Z.of_nat i * concurrency) with (Z.of_nat i * concurrency).
  fold (chunk_of targets concurrency i).
  unfold batch_events at 1.
  destruct (process_targets_returns session (chunk_of targets concurrency i) action
              dry_run (pool_of run i) Hc) as (results & Hrun).
  rewrite Hrun. reflexivity.
Qed.

Lemma batch_events_tag session targets action concurrency dry_run run i e :
  In e (batch_events session targets action concurrency dry_run run i) -> fst e = i.
Proof.
  unfold batch_events, tag. intros H. apply in_map_iff in H as (x & <- & _). reflexivity.
Qed.

Lemma batches_tags session targets action concurrency dry_run run :
  forall m i e,
    In e (flat_map (batch_events session targets action concurrency dry_run run) (seq i m)) ->
    (i <= fst e < i + m)%nat.
Proof.
  intros m i e H. apply in_flat_map in H as (j & Hj & He).
  apply batch_events_tag in He. apply in_seq in Hj. lia.
Qed.

(** In the trace of the loop, what belongs to an earlier iteration comes
    first. *)
Lemma batches_in_order session targets action concurrency dry_run run :
  forall m i p q x y,
    nth_error (flat_map (batch_events session targets action concurrency dry_run run)
                 (seq i m)) p = Some x ->
    nth_error (flat_map (batch_events session targets action concurrency dry_run run)
                 (seq i m)) q = Some y ->
    (fst x < fst y)%nat ->
    (p < q)%nat.
Proof.
  induction m as [| m IH]; intros i p q x y Hp Hq Hlt.
  - destruct p; discriminate Hp.
  - cbn [seq flat_map] in Hp, Hq.
    set (here := batch_events session targets action concurrency dry_run run i) in *.
    set (later := flat_map (batch_events session targets action concurrency dry_run run)
                    (seq (S i) m)) in *.
    destruct (Nat.lt_ge_cases p (List.length here)) as [Hp1 | Hp2];
      destruct (Nat.lt_ge_cases q (List.length here)) as [Hq1 | Hq2].
    + rewrite nth_error_app1 in Hp, Hq by assumption.
      apply nth_error_In, batch_events_tag in Hp.
      apply nth_error_In, batch_events_tag in Hq. lia.
    + lia.
    + rewrite nth_error_app1 in Hq by assumption.
      rewrite nth_error_app2 in Hp by assumption.
      apply nth_error_In, batch_events_tag in Hq.
      apply nth_error_In, batches_tags in Hp. lia.
    + rewrite nth_error_app2 in Hp, Hq by assumption.
      specialize (IH (S i) _ _ _ _ Hp Hq Hlt). lia.
Qed.

(** Within one call of [process_targets], every submitted future is
    yielded by [as_completed]. *)
Lemma process_targets_completes session targets action concurrency dry_run pool f :
  In (Submitted f) (snd (process_targets session targets action concurrency dry_run pool)) ->
  In (Completed f) (snd (process_targets session targets action concurrency dry_run pool)).
Proof.
  unfold process_targets. destruct (concurrency <=? 0); [contradiction |].
  set (futures := submit_all session action dry_run pool targets []).
  destruct (collect_events (as_completed pool futures) []) as (Hdone & _ & _).
  assert (Hnone : forall done results, ~ In (Submitted f) (snd (collect done results))).
  { clear. induction done as [| g rest IH]; intros results; cbn; [tauto |].
    destruct (outcome g).
    - specialize (IH (results ++ [v])).
      destruct (collect rest (results ++ [v])); cbn in *.
      intros [H | H]; [discriminate H | tauto].
    - specialize (IH results).
      destruct (collect rest results); cbn in *.
      intros [H | [H | H]]; [discriminate H | discriminate H | tauto]. }
  specialize (Hnone (as_completed pool futures) []).
  destruct (collect (as_completed pool futures) []) as [rs evs]; cbn [snd] in *.
  intros H. apply in_app_or in H as [H | H]; [| contradiction].
  apply in_map_iff in H as (g & Hg & Hin). injection Hg as ->.
  apply in_or_app. right. apply Hdone.
  eapply Permutation_in; [apply Permutation_sym, as_completed_perm | exact Hin].
Qed.

Lemma uniform_2_6 (r : Q) : (0 <= r < 1 -> 2 <= uniform 2 6 r < 6)%Q.
Proof. unfold uniform. intros [H0 H1]. split; lra. Qed.

(** The number of iterations [range(0, n, c)] gives, for [c >= 1]. *)
Lemma py_range_chunks (n : nat) (c : Z) :
  1 <= c ->
  exists m : nat,
    py_range 0 (Z.of_nat n) c = Return (map (fun k => 0 + Z.of_nat k * c) (seq 0 m))
    /\ (n <= m * Z.to_nat c)%nat
    /\ (forall i, (i < m)%nat -> (i * Z.to_nat c < n)%nat)
    /\ (forall i, (S i < m)%nat -> (S i * Z.to_nat c < n)%nat).
Proof.
  intros Hc. unfold py_range.
  assert (Hb0 : (c =? 0) = false) by (apply Z.eqb_neq; lia).
  assert (Hb1 : (0 <? c) = true) by (apply Z.ltb_lt; lia).
  rewrite Hb0, Hb1.
  destruct n as [| n].
  - exists 0%nat. cbn. repeat split; intros; lia.
  - assert (Hb2 : (0 <? Z.of_nat (S n)) = true) by (apply Z.ltb_lt; lia).
    rewrite Hb2.
    set (a := Z.of_nat (S n) - 0 - 1).
    assert (Ha : 0 <= a) by (subst a; lia).
    pose proof (Z.mul_div_le a c ltac:(lia)) as Hlow.
    pose proof (Z.mul_succ_div_gt a c ltac:(lia)) as Hhigh.
    pose proof (Z.div_pos a c Ha ltac:(lia)) as Hq.
    exists (Z.to_nat (a / c + 1)). split; [reflexivity |].
    set (qt := a / c) in *.
    assert (Hm : forall i : nat, (i < Z.to_nat (qt + 1))%nat -> Z.of_nat i <= qt) by (intros; lia).
    assert (Hmul : forall i : nat,
               Z.of_nat (i * Z.to_nat c) = Z.of_nat i * c)
      by (intros; rewrite Nat2Z.inj_mul, Z2Nat.id; lia).
    repeat split.
    + apply Nat2Z.inj_le. rewrite Hmul, Z2Nat.id by lia. subst a. nia.
    + intros i Hi. apply Nat2Z.inj_lt. rewrite Hmul. specialize (Hm i Hi). subst a. nia.
    + intros i Hi. apply Nat2Z.inj_lt. rewrite Hmul.
      specialize (Hm (S i) Hi). subst a. nia.
Qed.

(** Below 1 there is no batch: [range] refuses a step of 0, and with a
    negative step it is empty. *)
Lemma main_concurrency_zero args fh session run :
  concurrency args = 0 ->
  fst (main args fh session run) = Throw (OtherException "ValueError").
Proof. intros Hc. unfold main, py_range. now rewrite Hc. Qed.

Lemma main_concurrency_negative args fh session run :
  concurrency args < 0 ->
  main args fh session run
  = (Return tt,
     ([Logged INFO "Iniciando run: action=%s targets=%d concurrency=%d dry_run=%s"], [])).
Proof.
  intros Hc. unfold main, py_range.
  assert (Hb0 : (concurrency args =? 0) = false) by (apply Z.eqb_neq; lia).
  assert (Hb1 : (0 <? concurrency args) = false) by (apply Z.ltb_ge; lia).
  assert (Hb2 : (Z.of_nat (List.length (load_targets_from_file fh)) <? 0) = false)
    by (apply Z.ltb_ge; lia).
  now rewrite Hb0, Hb1, Hb2.
Qed.

(** C8.  For a concurrency limit of at least 1, [main] cuts the targets into
    consecutive chunks of that size (the last one may be shorter, none is
    empty) and handles them in order, one iteration each: the iteration
    submits the chunk, sees every submitted task completed, then sleeps
    [2 + 4 * r] seconds for its draw [r], between 2 and 6.  In the trace of
    the main thread whatever belongs to an earlier iteration comes before
    whatever belongs to a later one; so every task of a chunk has completed,
    and the sleep is over, before a task of the next chunk is submitted. *)
Theorem main_batches_in_sequence :
  forall (args : Namespace) (fh : list str) (session : Session) (run : Run),
    1 <= concurrency args ->
    (forall i, (0 <= main_random run i < 1)%Q) ->
    exists (m : nat) (before : list main_event) (evs : list (nat * main_event)),
      main args fh session run = (Return tt, (before, evs))
      /\ concat (map (chunk_of (load_targets_from_file fh) (concurrency args)) (seq 0 m))
         = load_targets_from_file fh
      /\ (forall i, (i < m)%nat ->
            chunk_of (load_targets_from_file fh) (concurrency args) i
            = firstn (Z.to_nat (concurrency args))
                (skipn (i * Z.to_nat (concurrency args)) (load_targets_from_file fh))
            /\ (1 <= List.length (chunk_of (load_targets_from_file fh) (concurrency args) i)
                <= Z.to_nat (concurrency args))%nat
            /\ ((S i < m)%nat ->
                List.length (chunk_of (load_targets_from_file fh) (concurrency args) i)
                = Z.to_nat (concurrency args)))
      /\ evs = flat_map (batch_events session (load_targets_from_file fh) (action args)
                           (concurrency args) (dry_run args) run) (seq 0 m)
      /\ (forall p q x y,
            nth_error evs p = Some x -> nth_error evs q = Some y ->
            (fst x < fst y)%nat -> (p < q)%nat)
      /\ (forall i f, In (i, Submitted f) evs -> In (i, Completed f) evs)
      /\ (forall i, (i < m)%nat ->
            In (i, Slept (uniform 2 6 (main_random run i))) evs
            /\ (2 <= uniform 2 6 (main_random run i) < 6)%Q).
Proof.
  intros args fh session run Hc Hdraws.
  set (targets := load_targets_from_file fh).
  set (c := concurrency args) in *.
  destruct (py_range_chunks (List.length targets) Hc) as (m & Hrange & Hcover & Hstart & Hfull).
  exists m. unfold main. fold targets. fold c. rewrite Hrange.
  rewrite (main_loop_batches session targets (action args) (dry_run args) run Hc m 0).
  eexists. eexists. split; [reflexivity |].
  split.
  { rewrite (map_ext _ (fun i => firstn (Z.to_nat c) (skipn (i * Z.to_nat c) targets)))
      by (intros i; now apply chunk_of_firstn).
    rewrite concat_chunks. now apply firstn_all2. }
  split.
  { intros i Hi. rewrite chunk_of_firstn by assumption.
    split; [reflexivity |]. rewrite chunk_length.
    specialize (Hstart i Hi). split; [lia |].
    intros Hsi. specialize (Hfull i Hsi). cbn in Hfull. lia. }
  split; [reflexivity |].
  split; [apply batches_in_order |].
  split.
  { intros i f Hin. apply in_flat_map in Hin as (j & Hj & Hin).
    pose proof (batch_events_tag _ _ _ _ _ _ _ _ Hin) as Htag. cbn in Htag. subst j.
    apply in_flat_map. exists i. split; [exact Hj |].
    unfold batch_events, tag in *. apply in_map_iff in Hin as (e & He & Hin).
    injection He as ->. apply in_map_iff. exists (Completed f). split; [reflexivity |].
    apply in_or_app. left. apply process_targets_completes.
    apply in_app_or in Hin as [Hin | [Hin | [Hin | []]]];
      [exact Hin | discriminate Hin | discriminate Hin]. }
  intros i Hi. split; [| apply uniform_2_6, Hdraws].
  apply in_flat_map. exists i. split; [apply in_seq; lia |].
  unfold batch_events, tag. apply in_map_iff. eexists. split; [reflexivity |].
  apply in_or_app. right. right. now left.
Qed.

Lemma main_batches_in_sequence_witness :
  1 <= concurrency (like_args 2 true)
  /\ (forall i, (0 <= main_random (steady_run (1 # 2)) i < 1)%Q)
  /\ exists (m : nat) (before : list main_event) (evs : list (nat * main_event)),
      main (like_args 2 true) five_targets
        (constant_session (Responds (mkResponse 200 true))) (steady_run (1 # 2))
      = (Return tt, (before, evs))
      /\ concat (map (chunk_of (load_targets_from_file five_targets)
                        (concurrency (like_args 2 true))) (seq 0 m))
         = load_targets_from_file five_targets
      /\ (forall i, (i < m)%nat ->
            chunk_of (load_targets_from_file five_targets) (concurrency (like_args 2 true)) i
            = firstn (Z.to_nat (concurrency (like_args 2 true)))
                (skipn (i * Z.to_nat (concurrency (like_args 2 true)))
                   (load_targets_from_file five_targets))
            /\ (1 <= List.length (chunk_of (load_targets_from_file five_targets)
                                    (concurrency (like_args 2 true)) i)
                <= Z.to_nat (concurrency (like_args 2 true)))%nat
            /\ ((S i < m)%nat ->
                List.length (chunk_of (load_targets_from_file five_targets)
                               (concurrency (like_args 2 true)) i)
                = Z.to_nat (concurrency (like_args 2 true))))
      /\ evs = flat_map (batch_events (constant_session (Responds (mkResponse 200 true)))
                           (load_targets_from_file five_targets)
                           (action (like_args 2 true)) (concurrency (like_args 2 true))
                           (dry_run (like_args 2 true)) (steady_run (1 # 2))) (seq 0 m)
      /\ (forall p q x y,
            nth_error evs p = Some x -> nth_error evs q = Some y ->
            (fst x < fst y)%nat -> (p < q)%nat)
      /\ (forall i f, In (i, Submitted f) evs -> In (i, Completed f) evs)
      /\ (forall i, (i < m)%nat ->
            In (i, Slept (uniform 2 6 (main_random (steady_run (1 # 2)) i))) evs
            /\ (2 <= uniform 2 6 (main_random (steady_run (1 # 2)) i) < 6)%Q).
Proof.
  assert (Hc : 1 <= concurrency (like_args 2 true)) by (cbn; lia).
  assert (Hd : forall i, (0 <= main_random (steady_run (1 # 2)) i < 1)%Q)
    by (intros i; split; [discriminate | reflexivity]).
  split; [exact Hc |]. split; [exact Hd |].
  apply (@main_batches_in_sequence (like_args 2 true) five_targets
           (constant_session (Responds (mkResponse 200 true))) (steady_run (1 # 2)) Hc Hd).
Defined.

(** ** Sample runs *)

(** Two transport errors, then a 404: three calls, two backoffs with base 1
    (0.5 s and 1 s at draw 0), and the response is returned as it is. *)
Example safe_request_after_transport_errors :
  safe_request (fails_first 2 (mkResponse 404 false)) "POST"
    (of_string "https://example.org/p/1") 5 (new_world 0 (constant_draws 0))
  = (Return (Some (mkResponse 404 false)),
     {| tid := 0; rng := constant_draws 0; draws := 2; calls := 3;
        trace :=
          [EvRequest "POST" (of_string "https://example.org/p/1");
           EvLog WARNING "RequestException on %s %s: %s";
           EvLog DEBUG "Backoff sleep: %.2fs (attempt=%d)";
           EvSleep (backoff_duration 1 0 (1 # 2) 0);
           EvRequest "POST" (of_string "https://example.org/p/1");
           EvLog WARNING "RequestException on %s %s: %s";
           EvLog DEBUG "Backoff sleep: %.2fs (attempt=%d)";
           EvSleep (backoff_duration 1 1 (1 # 2) 0);
           EvRequest "POST" (of_string "https://example.org/p/1");
           EvLog DEBUG "Request %s %s -> %s"] |}).
Proof. vm_compute. reflexivity. Qed.

Example backoff_durations_at_draw_0 :
  (backoff_duration 1 0 (1 # 2) 0 == 1 # 2)%Q /\ (backoff_duration 1 1 (1 # 2) 0 == 1)%Q.
Proof. split; reflexivity. Qed.

(** Transport errors on all five attempts: the handler reports false. *)
Example like_post_gives_up :
  fst (like_post (constant_session (Fails RequestException))
         (of_string "https://example.org/p/1") false (new_world 0 (constant_draws 0)))
  = Return false
  /\ request_calls
       (trace (snd (like_post (constant_session (Fails RequestException))
                      (of_string "https://example.org/p/1") false
                      (new_world 0 (constant_draws 0))))) = 5%nat.
Proof. split; vm_compute; reflexivity. Qed.

(** One task out of five raises: four results, in completion order. *)
Example process_targets_four_of_five :
  fst (process_targets (failing_for 1) five_targets "like" 2 false last_first)
  = Return [true; true; true; true].
Proof. vm_compute. reflexivity. Qed.

Example process_targets_dry_run_scenario :
  fst (process_targets (constant_session (Fails RequestException)) five_targets
         "like" 2 true in_order)
  = Return [true; true; true; true; true].
Proof. vm_compute. reflexivity. Qed.

Example load_targets_sample :
  load_targets_from_file
    [of_string "  https://example.org/p/1  "; [10%N]; [32%N; 9%N; 10%N];
     of_string "user_42"; []]
  = [of_string "https://example.org/p/1"; of_string "user_42"].
Proof. reflexivity. Qed.

(** * Further properties *)

(** ** The retry loop, whatever the session does *)

Lemma sleeps_app (tr1 tr2 : list event) : sleeps (tr1 ++ tr2) = sleeps tr1 ++ sleeps tr2.
Proof. unfold sleeps. apply flat_map_app. Qed.

Lemma sleep_calls_sleeps (tr : list event) : sleep_calls tr = List.length (sleeps tr).
Proof.
  unfold sleep_calls, sleeps. induction tr as [| e tr IH]; cbn; [reflexivity |].
  destruct e; cbn; now rewrite ?IH.
Qed.

(** A pass that meets a [requests.RequestException]: request, one log
    record, one backoff with base 1, and on to [attempt += 1]. *)
Lemma attempt_once_RequestException session method url attempt w e :
  answer session (tid w) (calls w) method url = Fails e ->
  is_RequestException e = true ->
  attempt_once session method url attempt w =
  (Return Again,
   {| tid := tid w; rng := rng w; draws := S (draws w); calls := S (calls w);
      trace := trace w ++
        [EvRequest method url;
         EvLog WARNING "RequestException on %s %s: %s";
         EvLog DEBUG "Backoff sleep: %.2fs (attempt=%d)";
         EvSleep (backoff_duration 1 attempt (1 # 2) (rng w (draws w)))] |}).
Proof.
  intros Hans He.
  unfold attempt_once, try_except_RequestException, bind at 1, session_request.
  rewrite Hans, He. unfold bind at 1, log at 1. unfold bind.
  rewrite exponential_backoff_sleep_run.
  unfold ret, emit; cbn. now rewrite <- !app_assoc.
Qed.

(** A pass that meets another exception lets it through, right after the
    request. *)
Lemma attempt_once_other_exception session method url attempt w e :
  answer session (tid w) (calls w) method url = Fails e ->
  is_RequestException e = false ->
  attempt_once session method url attempt w =
  (Throw e,
   {| tid := tid w; rng := rng w; draws := draws w; calls := S (calls w);
      trace := trace w ++ [EvRequest method url] |}).
Proof.
  intros Hans He.
  unfold attempt_once, try_except_RequestException, bind at 1, session_request.
  now rewrite Hans, He.
Qed.

(** After a retryable outcome the pass ends in [attempt += 1], having made
    one request and one sleep. *)
Lemma attempt_once_retryable session method url attempt w :
  retryable (answer session (tid w) (calls w) method url) = true ->
  exists w1 tr,
    attempt_once session method url attempt w = (Return Again, w1)
    /\ tid w1 = tid w /\ rng w1 = rng w
    /\ calls w1 = S (calls w) /\ draws w1 = S (draws w)
    /\ trace w1 = trace w ++ tr
    /\ request_calls tr = 1%nat
    /\ Forall (fun e => is_request e = true -> e = EvRequest method url) tr
    /\ sleeps tr
       = [backoff_duration (backoff_base (answer session (tid w) (calls w) method url))
            attempt (1 # 2) (rng w (draws w))].
Proof.
  intros Hretry.
  destruct (answer session (tid w) (calls w) method url) as [r | e] eqn:Hans;
    cbn in Hretry.
  - rewrite (attempt_once_rate_limited _ _ _ attempt _ Hans Hretry).
    eexists. eexists. split; [reflexivity |]. cbn.
    repeat split; auto.
    repeat constructor; cbn; intros; congruence.
  - rewrite (attempt_once_RequestException _ _ _ attempt _ Hans Hretry).
    eexists. eexists. split; [reflexivity |]. cbn.
    repeat split; auto.
    repeat constructor; cbn; intros; congruence.
Qed.

(** As long as the outcomes are retryable and attempts remain, the loop goes
    round. *)
Lemma safe_request_from_retries session method url max_attempts :
  forall (n : nat) (attempt : Z) (w : World),
    attempt + Z.of_nat n <= max_attempts ->
    (forall k, (k < n)%nat ->
       retryable (answer session (tid w) (calls w + k) method url) = true) ->
    exists w' tr,
      safe_request_from session method url max_attempts attempt w
      = safe_request_from session method url max_attempts (attempt + Z.of_nat n) w'
      /\ retried session method url attempt n w w' tr.
Proof.
  induction n as [| n IH]; intros attempt w Hle Hall.
  - exists w, []. rewrite Z.add_0_r. split; [reflexivity |].
    unfold retried. rewrite !Nat.add_0_r, app_nil_r. cbn. repeat split; auto.
  - rewrite safe_request_from_eq.
    assert (Hb : (attempt <? max_attempts) = true) by (apply Z.ltb_lt; lia).
    rewrite Hb.
    assert (H0 : retryable (answer session (tid w) (calls w) method url) = true).
    { specialize (Hall 0%nat ltac:(lia)). now rewrite Nat.add_0_r in Hall. }
    destruct (attempt_once_retryable session method url attempt w H0)
      as (w1 & tr1 & Hrun & Htid & Hrng & Hcalls & Hdraws & Htr & Hreq & Hurl & Hsl).
    rewrite Hrun.
    destruct (IH (attempt + 1) w1) as (w' & tr & Hgo & Hret).
    + lia.
    + intros k Hk. rewrite Htid, Hcalls.
      replace (S (calls w) + k)%nat with (calls w + S k)%nat by lia.
      apply Hall. lia.
    + exists w', (tr1 ++ tr).
      replace (attempt + Z.of_nat (S n)) with (attempt + 1 + Z.of_nat n) by lia.
      split; [exact Hgo |].
      destruct Hret as (Htid' & Hrng' & Hcalls' & Hdraws' & Htr' & Hreq' & Hurl' & Hsl').
      unfold retried.
      split; [congruence |]. split; [congruence |].
      split; [lia |]. split; [lia |].
      split; [rewrite Htr', Htr, <- app_assoc; reflexivity |].
      split; [rewrite request_calls_app; lia |].
      split; [apply Forall_app; now split |].
      rewrite sleeps_app, Hsl, Hsl'.
      assert (Hseq : seq 0 (S n) = 0%nat :: map S (seq 0 n))
        by (cbn [seq]; now rewrite seq_shift).
      rewrite Hseq, map_cons, map_map. cbn [app]. f_equal.
      * rewrite !Nat.add_0_r. cbn [Z.of_nat]. now rewrite Z.add_0_r.
      * apply map_ext. intros k.
        rewrite Htid, Hcalls, Hrng, Hdraws.
        replace (S (calls w) + k)%nat with (calls w + S k)%nat by lia.
        replace (S (draws w) + k)%nat with (draws w + S k)%nat by lia.
        replace (attempt + 1 + Z.of_nat k) with (attempt + Z.of_nat (S k)) by lia.
        reflexivity.
Qed.

Lemma first_not_retryable (f : nat -> bool) (m : nat) :
  (forall k, (k < m)%nat -> f k = true)
  \/ exists n, (n < m)%nat /\ f n = false /\ forall k, (k < n)%nat -> f k = true.
Proof.
  induction m as [| m [Hall | (n & Hn & Hf & Hbefore)]].
  - left. intros k Hk. lia.
  - destruct (f m) eqn:Hm.
    + left. intros k Hk. destruct (Nat.eq_dec k m) as [-> | Hne]; [exact Hm | apply Hall; lia].
    + right. exists m. repeat split; auto.
  - right. exists n. repeat split; auto.
Qed.

(** The loop entered at [attempt]: after [n] retried attempts, a response
    that is not rate limited ends it. *)
Lemma retries_then_response session method url max_attempts attempt w n r :
  attempt + Z.of_nat n < max_attempts ->
  (forall k, (k < n)%nat ->
     retryable (answer session (tid w) (calls w + k) method url) = true) ->
  answer session (tid w) (calls w + n) method url = Responds r ->
  rate_limited r = false ->
  exists (w_n w' : World) (tr : list event),
    safe_request_from session method url max_attempts attempt w = (Return (Some r), w')
    /\ retried session method url attempt n w w_n tr
    /\ trace w' = trace w ++ tr ++ [EvRequest method url; EvLog DEBUG "Request %s %s -> %s"]
    /\ calls w' = S (calls w + n)
    /\ draws w' = (draws w + n)%nat.
Proof.
  intros Hn Hall Hans Hrl.
  destruct (@safe_request_from_retries session method url max_attempts n attempt w
              ltac:(lia) Hall) as (w_n & tr & Hgo & Hret).
  pose proof Hret as (Htid & Hrng & Hcalls & Hdraws & Htr & _).
  exists w_n. rewrite Hgo, safe_request_from_eq.
  assert (Hb : (attempt + Z.of_nat n <? max_attempts) = true) by (apply Z.ltb_lt; lia).
  rewrite Hb.
  rewrite <- Hcalls, <- Htid in Hans.
  rewrite (attempt_once_response _ _ _ (attempt + Z.of_nat n) _ Hans Hrl).
  eexists. exists tr. split; [reflexivity |]. cbn [trace calls draws].
  split; [exact Hret |]. split; [now rewrite Htr, <- app_assoc |].
  split; lia.
Qed.



(** The loop entered at [attempt]: after [n] retried attempts, an exception
    of another class leaves it. *)
Lemma retries_then_other_exception session method url max_attempts attempt w n e :
  attempt + Z.of_nat n < max_attempts ->
  (forall k, (k < n)%nat ->
     retryable (answer session (tid w) (calls w + k) method url) = true) ->
  answer session (tid w) (calls w + n) method url = Fails e ->
  is_RequestException e = false ->
  exists (w_n w' : World) (tr : list event),
    safe_request_from session method url max_attempts attempt w = (Throw e, w')
    /\ retried session method url attempt n w w_n tr
    /\ trace w' = trace w ++ tr ++ [EvRequest method url]
    /\ calls w' = S (calls w + n)
    /\ draws w' = (draws w + n)%nat.
Proof.
  intros Hn Hall Hans He.
  destruct (@safe_request_from_retries session method url max_attempts n attempt w
              ltac:(lia) Hall) as (w_n & tr & Hgo & Hret).
  pose proof Hret as (Htid & Hrng & Hcalls & Hdraws & Htr & _).
  exists w_n. rewrite Hgo, safe_request_from_eq.
  assert (Hb : (attempt + Z.of_nat n <? max_attempts) = true) by (apply Z.ltb_lt; lia).
  rewrite Hb.
  rewrite <- Hcalls, <- Htid in Hans.
  rewrite (attempt_once_other_exception _ _ _ (attempt + Z.of_nat n) _ Hans He).
  eexists. exists tr. split; [reflexivity |]. cbn [trace calls draws].
  split; [exact Hret |]. split; [now rewrite Htr, <- app_assoc |].
  split; lia.
Qed.



(** The loop entered at [attempt]: when all the attempts that remain are
    retried, it ends with the error record and [None]. *)
Lemma retries_until_exhausted session method url max_attempts attempt w :
  (forall k, (k < Z.to_nat (max_attempts - attempt))%nat ->
     retryable (answer session (tid w) (calls w + k) method url) = true) ->
  exists (w_n w' : World) (tr : list event),
    safe_request_from session method url max_attempts attempt w = (Return None, w')
    /\ retried session method url attempt (Z.to_nat (max_attempts - attempt)) w w_n tr
    /\ trace w' = trace w ++ tr ++ [EvLog ERROR "Max attempts reached for %s %s"]
    /\ calls w' = (calls w + Z.to_nat (max_attempts - attempt))%nat
    /\ draws w' = (draws w + Z.to_nat (max_attempts - attempt))%nat.
Proof.
  intros Hall.
  destruct (Z_le_gt_dec max_attempts attempt) as [Hneg | Hpos].
  - exists w. rewrite safe_request_from_eq.
    assert (Hb : (attempt <? max_attempts) = false) by (apply Z.ltb_ge; lia).
    rewrite Hb. eexists. exists []. split; [reflexivity |].
    replace (Z.to_nat (max_attempts - attempt)) with 0%nat by lia.
    unfold retried. rewrite !Nat.add_0_r, app_nil_r. cbn.
    repeat split; auto.
  - destruct (@safe_request_from_retries session method url max_attempts
                (Z.to_nat (max_attempts - attempt)) attempt w ltac:(lia) Hall)
      as (w_n & tr & Hgo & Hret).
    pose proof Hret as (Htid & Hrng & Hcalls & Hdraws & Htr & _).
    exists w_n. rewrite Hgo, safe_request_from_eq.
    assert (Hb : (attempt + Z.of_nat (Z.to_nat (max_attempts - attempt)) <? max_attempts)
                 = false) by (apply Z.ltb_ge; lia).
    rewrite Hb. eexists. exists tr. split; [reflexivity |]. cbn [trace calls draws emit].
    split; [exact Hret |]. split; [now rewrite Htr, <- app_assoc |].
    split; lia.
Qed.



Lemma retried_sleep_calls session method url attempt n w w' tr :
  retried session method url attempt n w w' tr -> sleep_calls tr = n.
Proof.
  intros (_ & _ & _ & _ & _ & _ & _ & Hsl).
  now rewrite sleep_calls_sleeps, Hsl, length_map, length_seq.
Qed.

(** The three ways [safe_request] can end, read off the outcomes of
    [session.request]. *)
Lemma safe_request_outcome session method url max_attempts w :
  (exists w_n w' tr,
      safe_request session method url max_attempts w = (Return None, w')
      /\ retried session method url 0 (Z.to_nat max_attempts) w w_n tr
      /\ trace w' = trace w ++ tr ++ [EvLog ERROR "Max attempts reached for %s %s"]
      /\ calls w' = (calls w + Z.to_nat max_attempts)%nat
      /\ draws w' = (draws w + Z.to_nat max_attempts)%nat)
  \/ (exists n r w_n w' tr,
        (n < Z.to_nat max_attempts)%nat
        /\ answer session (tid w) (calls w + n) method url = Responds r
        /\ rate_limited r = false
        /\ safe_request session method url max_attempts w = (Return (Some r), w')
        /\ retried session method url 0 n w w_n tr
        /\ trace w' = trace w ++ tr
                      ++ [EvRequest method url; EvLog DEBUG "Request %s %s -> %s"]
        /\ calls w' = S (calls w + n)
        /\ draws w' = (draws w + n)%nat)
  \/ (exists n e w_n w' tr,
        (n < Z.to_nat max_attempts)%nat
        /\ answer session (tid w) (calls w + n) method url = Fails e
        /\ is_RequestException e = false
        /\ safe_request session method url max_attempts w = (Throw e, w')
        /\ retried session method url 0 n w w_n tr
        /\ trace w' = trace w ++ tr ++ [EvRequest method url]
        /\ calls w' = S (calls w + n)
        /\ draws w' = (draws w + n)%nat).
Proof.
  destruct (first_not_retryable
              (fun k => retryable (answer session (tid w) (calls w + k) method url))
              (Z.to_nat max_attempts)) as [Hall | (n & Hn & Hstop & Hbefore)].
  - left. unfold safe_request. cbv zeta.
    replace (Z.to_nat max_attempts) with (Z.to_nat (max_attempts - 0)) in * by (f_equal; lia).
    now apply retries_until_exhausted.
  - right. destruct (answer session (tid w) (calls w + n) method url) as [r | e] eqn:Hans;
      cbn in Hstop.
    + left.
      destruct (@retries_then_response session method url
                  max_attempts 0 w n r ltac:(lia) Hbefore Hans Hstop)
        as (w_n & w' & tr & H).
      exists n, r, w_n, w', tr. unfold safe_request. tauto.
    + right.
      destruct (@retries_then_other_exception session method url
                  max_attempts 0 w n e ltac:(lia) Hbefore Hans Hstop)
        as (w_n & w' & tr & H).
      exists n, e, w_n, w', tr. unfold safe_request. tauto.
Qed.

Lemma retried_requests_app session method url attempt n w w' tr last :
  retried session method url attempt n w w' tr ->
  request_calls last = 1%nat ->
  sleep_calls last = 0%nat ->
  Forall (fun e => is_request e = true -> e = EvRequest method url) last ->
  request_calls (tr ++ last) = S n
  /\ sleep_calls (tr ++ last) = n
  /\ Forall (fun e => is_request e = true -> e = EvRequest method url) (tr ++ last).
Proof.
  intros Hret Hreq Hsl Hurl.
  pose proof (retried_sleep_calls Hret) as Hn.
  destruct Hret as (_ & _ & _ & _ & _ & Hreq' & Hurl' & _).
  rewrite request_calls_app, sleep_calls_app, Forall_app. repeat split; auto; lia.
Qed.

Lemma safe_request_effects :
  forall (session : Session) (method : string) (url : str) (max_attempts : Z) (w : World),
    exists tr : list event,
      trace (snd (safe_request session method url max_attempts w)) = trace w ++ tr
      /\ (request_calls tr <= Z.to_nat max_attempts)%nat
      /\ (sleep_calls tr <= request_calls tr)%nat
      /\ Forall (fun e => is_request e = true -> e = EvRequest method url) tr
      /\ calls (snd (safe_request session method url max_attempts w))
         = (calls w + request_calls tr)%nat
      /\ draws (snd (safe_request session method url max_attempts w))
         = (draws w + sleep_calls tr)%nat.
Proof.
  intros session method url max_attempts w.
  destruct (safe_request_outcome session method url max_attempts w)
    as [(w_n & w' & tr & Hrun & Hret & Htr & Hcalls & Hdraws)
       | [(n & r & w_n & w' & tr & Hn & _ & _ & Hrun & Hret & Htr & Hcalls & Hdraws)
         | (n & e & w_n & w' & tr & Hn & _ & _ & Hrun & Hret & Htr & Hcalls & Hdraws)]];
    rewrite Hrun; cbn [snd].
  - exists (tr ++ [EvLog ERROR "Max attempts reached for %s %s"]).
    pose proof (retried_sleep_calls Hret) as Hsl.
    destruct Hret as (_ & _ & _ & _ & _ & Hreq & Hurl & _).
    rewrite request_calls_app, sleep_calls_app, Forall_app. cbn.
    rewrite !Nat.add_0_r.
    repeat split; auto; try lia.
    repeat constructor. cbn. discriminate.
  - exists (tr ++ [EvRequest method url; EvLog DEBUG "Request %s %s -> %s"]).
    destruct (@retried_requests_app _ _ _ _ _ _ _ _
                [EvRequest method url; EvLog DEBUG "Request %s %s -> %s"] Hret)
      as (Hreq & Hsl & Hurl); try reflexivity.
    { repeat constructor; cbn; intros; congruence. }
    rewrite Hreq, Hsl. repeat split; auto; lia.
  - exists (tr ++ [EvRequest method url]).
    destruct (@retried_requests_app _ _ _ _ _ _ _ _ [EvRequest method url] Hret)
      as (Hreq & Hsl & Hurl); try reflexivity.
    { repeat constructor; cbn; intros; congruence. }
    rewrite Hreq, Hsl. repeat split; auto; lia.
Qed.

(** Whatever the session does, [safe_request] makes at most [max_attempts]
    requests, all of them with its own [method] and [url], and sleeps at
    most once per request. *)
Theorem safe_request_bounded :
  forall (session : Session) (method : string) (url : str) (max_attempts : Z) (w : World),
    exists tr : list event,
      trace (snd (safe_request session method url max_attempts w)) = trace w ++ tr
      /\ (request_calls tr <= Z.to_nat max_attempts)%nat
      /\ (sleep_calls tr <= request_calls tr)%nat
      /\ Forall (fun e => is_request e = true -> e = EvRequest method url) tr
      /\ calls (snd (safe_request session method url max_attempts w))
         = (calls w + request_calls tr)%nat
      /\ draws (snd (safe_request session method url max_attempts w))
         = (draws w + sleep_calls tr)%nat.
Proof. exact safe_request_effects. Qed.

Lemma safe_request_result_facts :
  forall (session : Session) (method : string) (url : str) (max_attempts : Z) (w : World),
    exists tr : list event,
      trace (snd (safe_request session method url max_attempts w)) = trace w ++ tr
      /\ (forall r,
            fst (safe_request session method url max_attempts w) = Return (Some r) ->
            status_code r <> 429 /\ status_code r <> 420
            /\ (1 <= request_calls tr)%nat
            /\ answer session (tid w) (calls w + request_calls tr - 1) method url = Responds r
            /\ sleep_calls tr = (request_calls tr - 1)%nat)
      /\ (fst (safe_request session method url max_attempts w) = Return None ->
          request_calls tr = Z.to_nat max_attempts
          /\ sleep_calls tr = Z.to_nat max_attempts
          /\ forall k, (k < Z.to_nat max_attempts)%nat ->
               retryable (answer session (tid w) (calls w + k) method url) = true)
      /\ (forall e,
            fst (safe_request session method url max_attempts w) = Throw e ->
            is_RequestException e = false
            /\ (1 <= request_calls tr)%nat
            /\ answer session (tid w) (calls w + request_calls tr - 1) method url = Fails e).
Proof.
  intros session method url max_attempts w.
  destruct (safe_request_outcome session method url max_attempts w)
    as [(w_n & w' & tr & Hrun & Hret & Htr & Hcalls & Hdraws)
       | [(n & r & w_n & w' & tr & Hn & Hans & Hrl & Hrun & Hret & Htr & Hcalls & Hdraws)
         | (n & e & w_n & w' & tr & Hn & Hans & He & Hrun & Hret & Htr & Hcalls & Hdraws)]];
    rewrite Hrun; cbn [fst snd].
  - exists (tr ++ [EvLog ERROR "Max attempts reached for %s %s"]).
    pose proof (retried_sleep_calls Hret) as Hsl.
    pose proof Hret as (_ & _ & _ & _ & _ & Hreq & _ & Hsleeps).
    rewrite request_calls_app, sleep_calls_app. cbn. rewrite !Nat.add_0_r.
    split; [exact Htr |].
    split; [intros r Hr; discriminate Hr |].
    split; [| intros e He; discriminate He].
    intros _. split; [exact Hreq |]. split; [exact Hsl |].
    intros k Hk.
    destruct (first_not_retryable
                (fun k => retryable (answer session (tid w) (calls w + k) method url))
                (Z.to_nat max_attempts)) as [Hall | (m & Hm & Hstop & Hbefore)];
      [now apply Hall |].
    exfalso.
    destruct (answer session (tid w) (calls w + m) method url) as [r | e] eqn:Hans;
      cbn in Hstop.
    + destruct (@retries_then_response session method url max_attempts 0 w m r
                  ltac:(lia) Hbefore Hans Hstop) as (? & ? & ? & Hrun' & _).
      unfold safe_request in Hrun. rewrite Hrun in Hrun'. discriminate Hrun'.
    + destruct (@retries_then_other_exception session method url max_attempts 0 w m e
                  ltac:(lia) Hbefore Hans Hstop) as (? & ? & ? & Hrun' & _).
      unfold safe_request in Hrun. rewrite Hrun in Hrun'. discriminate Hrun'.
  - exists (tr ++ [EvRequest method url; EvLog DEBUG "Request %s %s -> %s"]).
    destruct (@retried_requests_app _ _ _ _ _ _ _ _
                [EvRequest method url; EvLog DEBUG "Request %s %s -> %s"] Hret)
      as (Hreq & Hsl & Hurl); try reflexivity.
    { repeat constructor; cbn; intros; congruence. }
    rewrite Hreq, Hsl.
    split; [exact Htr |].
    split; [| split; [intros H; discriminate H | intros e He; discriminate He]].
    intros r' Hr'. injection Hr' as <-.
    assert (Hst : ~ (status_code r = 429 \/ status_code r = 420)).
    { intros H. apply rate_limited_iff in H. congruence. }
    replace (calls w + S n - 1)%nat with (calls w + n)%nat by lia.
    repeat split; auto; try lia; tauto.
  - exists (tr ++ [EvRequest method url]).
    destruct (@retried_requests_app _ _ _ _ _ _ _ _ [EvRequest method url] Hret)
      as (Hreq & Hsl & Hurl); try reflexivity.
    { repeat constructor; cbn; intros; congruence. }
    rewrite Hreq.
    split; [exact Htr |].
    split; [intros r Hr; discriminate Hr |].
    split; [intros H; discriminate H |].
    intros e' He'. injection He' as <-.
    replace (calls w + S n - 1)%nat with (calls w + n)%nat by lia.
    repeat split; auto; lia.
Qed.


(** ** How long the backoff lasts *)

Lemma Qpower2_pos (z : Z) : (0 < 2 ^ z)%Q.
Proof. apply Qpower_0_lt. reflexivity. Qed.

Lemma Qpower2_succ (z : Z) : (2 ^ (z + 1) == 2 * 2 ^ z)%Q.
Proof.
  rewrite Qpower_plus by discriminate.
  change (2 ^ 1)%Q with 2%Q. ring.
Qed.

(** With the jitter [1/2] that [safe_request] uses, the floor at 0 never
    applies: the sleep lasts between half and one and a half times
    [base * 2^attempt]. *)
Lemma backoff_duration_half_jitter (base : Q) (attempt : Z) (r : Q) :
  (0 < base)%Q -> (0 <= r < 1)%Q ->
  (backoff_duration base attempt (1 # 2) r == base * 2 ^ attempt * ((1 # 2) + r)
   /\ base * 2 ^ attempt * (1 # 2) <= backoff_duration base attempt (1 # 2) r
   /\ backoff_duration base attempt (1 # 2) r < base * 2 ^ attempt * (3 # 2))%Q.
Proof.
  intros Hbase [Hr0 Hr1].
  pose proof (backoff_scale_pos attempt Hbase) as Hscale.
  set (scale := (base * 2 ^ attempt)%Q) in *.
  assert (Heq : (backoff_duration base attempt (1 # 2) r == scale * ((1 # 2) + r))%Q).
  { unfold backoff_duration. fold scale. rewrite py_max0_Qmax.
    assert (Hf : (1 + uniform (- (1 # 2)) (1 # 2) r == (1 # 2) + r)%Q)
      by (unfold uniform; ring).
    rewrite Hf. apply Q.max_r. nra. }
  split; [exact Heq |]. rewrite Heq. split; nra.
Qed.

Lemma backoff_base_cases (a : reply) : backoff_base a = 1%Q \/ backoff_base a = 2%Q.
Proof. destruct a; cbn; auto. Qed.

(** The sum of sleeps that grow like [2^k], between two multiples of
    [2^(s+n) - 2^s]. *)
Lemma Qsum_doubling (lo hi : Q) (f : nat -> Q) :
  forall (n s : nat),
    (forall k, (s <= k < s + n)%nat ->
       (lo * 2 ^ Z.of_nat k <= f k <= hi * 2 ^ Z.of_nat k)%Q) ->
    (lo * (2 ^ Z.of_nat (s + n) - 2 ^ Z.of_nat s) <= Qsum (map f (seq s n))
     /\ Qsum (map f (seq s n)) <= hi * (2 ^ Z.of_nat (s + n) - 2 ^ Z.of_nat s))%Q.
Proof.
  induction n as [| n IH]; intros s Hf.
  - rewrite Nat.add_0_r. cbn. split; ring_simplify; apply Qle_refl.
  - cbn [seq map Qsum fold_right].
    destruct (IH (S s)) as [Hlo Hhi]; [intros k Hk; apply Hf; lia |].
    destruct (Hf s ltac:(lia)) as [Hflo Hfhi].
    fold (Qsum (map f (seq (S s) n))).
    replace (s + S n)%nat with (S s + n)%nat by lia.
    assert (Hs : (2 ^ Z.of_nat (S s) == 2 * 2 ^ Z.of_nat s)%Q).
    { rewrite Nat2Z.inj_succ. unfold Z.succ. apply Qpower2_succ. }
    rewrite Hs in Hlo, Hhi.
    set (p := (2 ^ Z.of_nat s)%Q) in *.
    set (q := (2 ^ Z.of_nat (S s + n))%Q) in *.
    set (total := Qsum (map f (seq (S s) n))) in *.
    split; lra.
Qed.

Lemma total_sleep_app (tr1 tr2 : list event) :
  (total_sleep (tr1 ++ tr2) == total_sleep tr1 + total_sleep tr2)%Q.
Proof.
  unfold total_sleep. rewrite sleeps_app. unfold Qsum.
  induction (sleeps tr1) as [| d l IH]; cbn; [ring |]. rewrite IH. ring.
Qed.

(** The sleeps of [n] retried attempts, with draws in [0, 1). *)
Lemma retried_total_sleep session method url n w w' tr :
  (forall k, (0 <= rng w k < 1)%Q) ->
  retried session method url 0 n w w' tr ->
  ((1 # 2) * (2 ^ Z.of_nat n - 1) <= total_sleep tr
   /\ total_sleep tr <= 3 * (2 ^ Z.of_nat n - 1))%Q.
Proof.
  intros Hdraws (_ & _ & _ & _ & _ & _ & _ & Hsl).
  unfold total_sleep. rewrite Hsl.
  pose proof (@Qsum_doubling (1 # 2) 3
                (fun k => backoff_duration
                            (backoff_base (answer session (tid w) (calls w + k) method url))
                            (0 + Z.of_nat k) (1 # 2) (rng w (draws w + k))) n 0%nat) as H.
  cbn [Nat.add] in H. change (2 ^ Z.of_nat 0)%Q with 1%Q in H.
  apply H. intros k _.
  pose proof (Qpower2_pos (Z.of_nat k)) as Hp.
  destruct (backoff_base_cases (answer session (tid w) (calls w + k) method url)) as [-> | ->];
    cbn [Z.add];
    match goal with
    | |- context [backoff_duration ?b ?a _ ?r] =>
        destruct (@backoff_duration_half_jitter b a r ltac:(reflexivity) (Hdraws _))
          as (_ & Hlo & Hhi)
    end;
    split; nra.
Qed.

Lemma safe_request_sleep_bound session method url max_attempts w :
  (forall k, (0 <= rng w k < 1)%Q) ->
  exists tr : list event,
    trace (snd (safe_request session method url max_attempts w)) = trace w ++ tr
    /\ (0 <= total_sleep tr)%Q
    /\ (total_sleep tr <= 3 * (2 ^ Z.max 0 max_attempts - 1))%Q
    /\ (fst (safe_request session method url max_attempts w) = Return None ->
        ((1 # 2) * (2 ^ Z.max 0 max_attempts - 1) <= total_sleep tr)%Q).
Proof.
  intros Hdraws.
  assert (Hmono : forall n : nat, (n <= Z.to_nat max_attempts)%nat ->
             (1 <= 2 ^ Z.of_nat n /\ 2 ^ Z.of_nat n <= 2 ^ Z.max 0 max_attempts)%Q).
  { intros n Hn. split.
    - apply Qpower_1_le; [discriminate | lia].
    - apply Qpower_le_compat_l; [lia | discriminate]. }
  destruct (safe_request_outcome session method url max_attempts w)
    as [(w_n & w' & tr & Hrun & Hret & Htr & _)
       | [(n & r & w_n & w' & tr & Hn & _ & _ & Hrun & Hret & Htr & _)
         | (n & e & w_n & w' & tr & Hn & _ & _ & Hrun & Hret & Htr & _)]];
    rewrite Hrun; cbn [fst snd];
    destruct (retried_total_sleep Hdraws Hret) as [Hlo Hhi];
    match type of Htr with
    | _ = _ ++ _ ++ ?last =>
        exists (tr ++ last);
        assert (Hz : total_sleep last = 0%Q) by reflexivity;
        (split; [exact Htr |]); rewrite total_sleep_app, Hz
    end;
    match type of Hret with
    | retried _ _ _ _ ?m _ _ _ => destruct (Hmono m ltac:(lia)) as [H1 H2]
    end.
  - rewrite <- ZifyInst.of_nat_to_nat_eq in *.
    repeat split; lra.
  - repeat split; try lra. intros H; discriminate H.
  - repeat split; try lra. intros H; discriminate H.
Qed.

(** With draws in [0, 1), the sleeps of one call of [safe_request] add up to
    at most [3 * (2^max_attempts - 1)] seconds; when it gives up with [None]
    they add up to at least [(2^max_attempts - 1) / 2] seconds. *)
Theorem safe_request_total_sleep :
  forall (session : Session) (method : string) (url : str) (max_attempts : Z) (w : World),
    (forall k, (0 <= rng w k < 1)%Q) ->
    exists tr : list event,
      trace (snd (safe_request session method url max_attempts w)) = trace w ++ tr
      /\ (0 <= total_sleep tr)%Q
      /\ (total_sleep tr <= 3 * (2 ^ Z.max 0 max_attempts - 1))%Q
      /\ (fst (safe_request session method url max_attempts w) = Return None ->
          ((1 # 2) * (2 ^ Z.max 0 max_attempts - 1) <= total_sleep tr)%Q).
Proof. exact safe_request_sleep_bound. Qed.

Lemma safe_request_total_sleep_witness :
  (forall k, (0 <= rng (new_world 0 (constant_draws (1 # 4))) k < 1)%Q)
  /\ exists tr : list event,
      trace (snd (safe_request (constant_session (Fails RequestException)) "POST"
                    (of_string "https://example.org/p/1") 5
                    (new_world 0 (constant_draws (1 # 4)))))
      = trace (new_world 0 (constant_draws (1 # 4))) ++ tr
      /\ (0 <= total_sleep tr)%Q
      /\ (total_sleep tr <= 3 * (2 ^ Z.max 0 5 - 1))%Q
      /\ (fst (safe_request (constant_session (Fails RequestException)) "POST"
                 (of_string "https://example.org/p/1") 5
                 (new_world 0 (constant_draws (1 # 4)))) = Return None ->
          ((1 # 2) * (2 ^ Z.max 0 5 - 1) <= total_sleep tr)%Q).
Proof.
  assert (H : forall k, (0 <= rng (new_world 0 (constant_draws (1 # 4))) k < 1)%Q)
    by (intros k; split; [discriminate | reflexivity]).
  split; [exact H |].
  apply (@safe_request_total_sleep (constant_session (Fails RequestException)) "POST"
           (of_string "https://example.org/p/1") 5 (new_world 0 (constant_draws (1 # 4))) H).
Defined.

(** ** The backoff, attempt after attempt *)




(** ** The handlers, whatever the session does *)

(** What has been recorded so far has no influence on a pass of the loop. *)
Lemma attempt_once_frame session method url attempt w1 w2 :
  same_state w1 w2 ->
  exists p w1' w2' t,
    attempt_once session method url attempt w1 = (p, w1')
    /\ attempt_once session method url attempt w2 = (p, w2')
    /\ trace w1' = trace w1 ++ t
    /\ trace w2' = trace w2 ++ t
    /\ same_state w1' w2'.
Proof.
  intros (Htid & Hrng & Hdraws & Hcalls).
  destruct (answer session (tid w1) (calls w1) method url) as [r | e] eqn:Hans1.
  - pose proof Hans1 as Hans2. rewrite Htid, Hcalls in Hans2.
    destruct (rate_limited r) eqn:Hrl.
    + rewrite (attempt_once_rate_limited _ _ _ attempt _ Hans1 Hrl),
        (attempt_once_rate_limited _ _ _ attempt _ Hans2 Hrl).
      rewrite <- Hrng, <- Hdraws.
      do 4 eexists. split; [reflexivity |]. split; [reflexivity |].
      cbn. split; [reflexivity |]. split; [reflexivity |].
      repeat split; cbn; congruence.
    + rewrite (attempt_once_response _ _ _ attempt _ Hans1 Hrl),
        (attempt_once_response _ _ _ attempt _ Hans2 Hrl).
      do 4 eexists. split; [reflexivity |]. split; [reflexivity |].
      cbn. split; [reflexivity |]. split; [reflexivity |].
      repeat split; cbn; congruence.
  - pose proof Hans1 as Hans2. rewrite Htid, Hcalls in Hans2.
    destruct (is_RequestException e) eqn:He.
    + rewrite (attempt_once_RequestException _ _ _ attempt _ Hans1 He),
        (attempt_once_RequestException _ _ _ attempt _ Hans2 He).
      rewrite <- Hrng, <- Hdraws.
      do 4 eexists. split; [reflexivity |]. split; [reflexivity |].
      cbn. split; [reflexivity |]. split; [reflexivity |].
      repeat split; cbn; congruence.
    + rewrite (attempt_once_other_exception _ _ _ attempt _ Hans1 He),
        (attempt_once_other_exception _ _ _ attempt _ Hans2 He).
      do 4 eexists. split; [reflexivity |]. split; [reflexivity |].
      cbn. split; [reflexivity |]. split; [reflexivity |].
      repeat split; cbn; congruence.
Qed.

Lemma safe_request_from_frame session method url max_attempts :
  forall (n : nat) (attempt : Z) (w1 w2 : World),
    Z.to_nat (max_attempts - attempt) = n ->
    same_state w1 w2 ->
    exists res w1' w2' t,
      safe_request_from session method url max_attempts attempt w1 = (res, w1')
      /\ safe_request_from session method url max_attempts attempt w2 = (res, w2')
      /\ trace w1' = trace w1 ++ t
      /\ trace w2' = trace w2 ++ t
      /\ same_state w1' w2'.
Proof.
  induction n as [| n IH]; intros attempt w1 w2 Hn Hsame;
    rewrite !safe_request_from_eq.
  - assert (Hb : (attempt <? max_attempts) = false) by (apply Z.ltb_ge; lia).
    rewrite Hb. do 4 eexists. split; [reflexivity |]. split; [reflexivity |].
    cbn. repeat split; auto; apply Hsame.
  - assert (Hb : (attempt <? max_attempts) = true) by (apply Z.ltb_lt; lia).
    rewrite Hb.
    destruct (attempt_once_frame session method url attempt Hsame)
      as (p & w1' & w2' & t & Hrun1 & Hrun2 & Htr1 & Htr2 & Hsame').
    rewrite Hrun1, Hrun2.
    destruct p as [[resp | ] | e].
    + exists (Return (Some resp)), w1', w2', t. auto.
    + destruct (IH (attempt + 1) w1' w2' ltac:(lia) Hsame')
        as (res & w1'' & w2'' & t' & Hgo1 & Hgo2 & Htr1' & Htr2' & Hsame'').
      exists res, w1'', w2'', (t ++ t').
      split; [exact Hgo1 |]. split; [exact Hgo2 |].
      rewrite Htr1', Htr2', Htr1, Htr2, <- !app_assoc. auto.
    + exists (Throw e), w1', w2', t. auto.
Qed.

Lemma without_logs_app (tr1 tr2 : list event) :
  without_logs (tr1 ++ tr2) = without_logs tr1 ++ without_logs tr2.
Proof. apply filter_app. Qed.

(** A handler that is not in a dry run, in terms of what [safe_request]
    does after the first log record. *)
Lemma like_post_run session post_url w :
  like_post session post_url false w =
  match safe_request session "POST" post_url 5 (emit (EvLog INFO "Like post: %s") w) with
  | (Return resp, w1) =>
      if resp_and_ok resp then (Return true, emit (EvLog INFO "Like OK: %s") w1)
      else (Return false, emit (EvLog WARNING "Like falló para %s: %s") w1)
  | (Throw e, w1) => (Throw e, w1)
  end.
Proof.
  unfold like_post, bind at 1, log at 1. unfold bind at 1.
  destruct (safe_request session "POST" post_url 5 (emit (EvLog INFO "Like post: %s") w))
    as [[resp | e] w1]; [| reflexivity].
  now destruct (resp_and_ok resp).
Qed.

Lemma follow_user_run session user_id_or_url w :
  follow_user session user_id_or_url false w =
  match safe_request session "POST" user_id_or_url 5
          (emit (EvLog INFO "Follow user: %s") w) with
  | (Return resp, w1) =>
      if resp_and_ok resp then (Return true, emit (EvLog INFO "Follow OK: %s") w1)
      else (Return false, emit (EvLog WARNING "Follow falló para %s: %s") w1)
  | (Throw e, w1) => (Throw e, w1)
  end.
Proof.
  unfold follow_user, bind at 1, log at 1. unfold bind at 1.
  destruct (safe_request session "POST" user_id_or_url 5
              (emit (EvLog INFO "Follow user: %s") w))
    as [[resp | e] w1]; [| reflexivity].
  now destruct (resp_and_ok resp).
Qed.

(** [like_post] and [follow_user] differ in their log records only: on the
    same session, target, flag and world they end alike, after the same
    requests and the same sleeps. *)
Theorem like_post_follow_user_alike :
  forall (session : Session) (target : str) (dry_run : bool) (w : World),
    fst (like_post session target dry_run w) = fst (follow_user session target dry_run w)
    /\ exists t : list event,
         without_logs (trace (snd (like_post session target dry_run w)))
         = without_logs (trace w) ++ t
         /\ without_logs (trace (snd (follow_user session target dry_run w)))
            = without_logs (trace w) ++ t
    /\ same_state (snd (like_post session target dry_run w))
         (snd (follow_user session target dry_run w)).
Proof.
  intros session target dry_run w.
  destruct dry_run.
  - split; [reflexivity |]. exists []. rewrite app_nil_r.
    cbn. unfold without_logs. rewrite !filter_app. cbn. rewrite !app_nil_r.
    repeat split; reflexivity.
  - rewrite like_post_run, follow_user_run. unfold safe_request.
    destruct (@safe_request_from_frame session "POST" target 5 5 0
                (emit (EvLog INFO "Like post: %s") w)
                (emit (EvLog INFO "Follow user: %s") w) eq_refl)
      as (res & w1 & w2 & t & Hrun1 & Hrun2 & Htr1 & Htr2 & Hsame).
    { repeat split. }
    cbv zeta. rewrite Hrun1, Hrun2.
    destruct res as [resp | e].
    + destruct (resp_and_ok resp); cbn; (split; [reflexivity |]);
        exists (without_logs t); rewrite Htr1, Htr2; cbn;
        rewrite !without_logs_app; cbn; rewrite !app_nil_r; auto.
    + cbn. split; [reflexivity |]. exists (without_logs t). rewrite Htr1, Htr2. cbn.
      rewrite !without_logs_app. cbn. rewrite !app_nil_r. auto.
Qed.

Lemma handler_effects session target w0 (w1 : World) (last : list event) :
  (forall k, (0 <= rng w0 k < 1)%Q) ->
  w1 = snd (safe_request session "POST" target 5 w0) ->
  request_calls last = 0%nat ->
  total_sleep last = 0%Q ->
  exists tr,
    trace w1 ++ last = trace w0 ++ tr
    /\ (request_calls tr <= 5)%nat
    /\ Forall (fun e => is_request e = true -> e = EvRequest "POST" target) tr
    /\ (0 <= total_sleep tr <= 93)%Q.
Proof.
  intros Hdraws -> Hreq Hsl.
  destruct (safe_request_effects session "POST" target 5 w0)
    as (tr & Htr & Hn & _ & Hurl & _).
  destruct (@safe_request_sleep_bound session "POST" target 5 w0 Hdraws)
    as (tr' & Htr' & Hlo & Hhi & _).
  assert (tr' = tr) by (rewrite Htr in Htr'; now apply app_inv_head in Htr').
  subst tr'.
  exists (tr ++ last). rewrite Htr, <- app_assoc. split; [reflexivity |].
  rewrite request_calls_app, total_sleep_app, Hreq, Hsl, Forall_app.
  split; [change (Z.to_nat 5) with 5%nat in Hn; lia |]. split.
  - split; [exact Hurl |].
    apply Forall_forall. intros e He Hr. exfalso.
    assert (Hpos : (0 < request_calls last)%nat); [| lia].
    unfold request_calls. clear - He Hr.
    induction last as [| x l IH]; [contradiction |]. cbn.
    destruct He as [-> | He]; [rewrite Hr; cbn; lia |].
    specialize (IH He). destruct (is_request x); cbn; lia.
  - change (3 * (2 ^ Z.max 0 5 - 1))%Q with (3 * (2 ^ 5 - 1))%Q in Hhi.
    assert (H93 : (3 * (2 ^ 5 - 1) == 93)%Q) by reflexivity.
    rewrite H93 in Hhi. split; lra.
Qed.

(** One call of a handler makes at most 5 requests, each a POST to its
    target, and spends at most 93 seconds in backoff sleeps (with draws in
    [0, 1)), whatever the session answers. *)
Theorem handlers_bounded :
  forall (session : Session) (target : str) (dry_run : bool) (w : World),
    (forall k, (0 <= rng w k < 1)%Q) ->
    (exists tr,
        trace (snd (like_post session target dry_run w)) = trace w ++ tr
        /\ (request_calls tr <= 5)%nat
        /\ Forall (fun e => is_request e = true -> e = EvRequest "POST" target) tr
        /\ (0 <= total_sleep tr <= 93)%Q)
    /\ (exists tr,
          trace (snd (follow_user session target dry_run w)) = trace w ++ tr
          /\ (request_calls tr <= 5)%nat
          /\ Forall (fun e => is_request e = true -> e = EvRequest "POST" target) tr
          /\ (0 <= total_sleep tr <= 93)%Q).
Proof.
  intros session target dry_run w Hdraws.
  destruct dry_run.
  - split.
    + exists [EvLog INFO "Like post: %s"; EvLog INFO "[dry-run] Simulando like a %s"].
      split; [cbn; now rewrite <- app_assoc |].
      split; [cbn; lia |].
      split; [repeat constructor; cbn; discriminate | split; discriminate].
    + exists [EvLog INFO "Follow user: %s"; EvLog INFO "[dry-run] Simulando follow a %s"].
      split; [cbn; now rewrite <- app_assoc |].
      split; [cbn; lia |].
      split; [repeat constructor; cbn; discriminate | split; discriminate].
  - split.
    + rewrite like_post_run.
      destruct (safe_request session "POST" target 5 (emit (EvLog INFO "Like post: %s") w))
        as [[resp | e] w1] eqn:Hrun.
      * destruct (resp_and_ok resp); cbn [snd emit trace];
          match goal with
          | |- context [trace w1 ++ ?last] =>
              destruct (@handler_effects session target
                          (emit (EvLog INFO "Like post: %s") w) w1 last Hdraws
                          ltac:(now rewrite Hrun) eq_refl eq_refl)
                as (tr & Htr & Hn & Hurl & Hsl)
          end;
          exists (EvLog INFO "Like post: %s" :: tr);
          (split; [rewrite Htr; cbn; now rewrite <- app_assoc |]);
          (split; [exact Hn |]); (split; [| exact Hsl]);
          (constructor; [cbn; discriminate | exact Hurl]).
      * cbn [snd].
        destruct (@handler_effects session target
                    (emit (EvLog INFO "Like post: %s") w) w1 [] Hdraws
                    ltac:(now rewrite Hrun) eq_refl eq_refl)
          as (tr & Htr & Hn & Hurl & Hsl).
        rewrite app_nil_r in Htr.
        exists (EvLog INFO "Like post: %s" :: tr).
        split; [rewrite Htr; cbn; now rewrite <- app_assoc |].
        split; [exact Hn |]. split; [| exact Hsl].
        constructor; [cbn; discriminate | exact Hurl].
    + rewrite follow_user_run.
      destruct (safe_request session "POST" target 5 (emit (EvLog INFO "Follow user: %s") w))
        as [[resp | e] w1] eqn:Hrun.
      * destruct (resp_and_ok resp); cbn [snd emit trace];
          match goal with
          | |- context [trace w1 ++ ?last] =>
              destruct (@handler_effects session target
                          (emit (EvLog INFO "Follow user: %s") w) w1 last Hdraws
                          ltac:(now rewrite Hrun) eq_refl eq_refl)
                as (tr & Htr & Hn & Hurl & Hsl)
          end;
          exists (EvLog INFO "Follow user: %s" :: tr);
          (split; [rewrite Htr; cbn; now rewrite <- app_assoc |]);
          (split; [exact Hn |]); (split; [| exact Hsl]);
          (constructor; [cbn; discriminate | exact Hurl]).
      * cbn [snd].
        destruct (@handler_effects session target
                    (emit (EvLog INFO "Follow user: %s") w) w1 [] Hdraws
                    ltac:(now rewrite Hrun) eq_refl eq_refl)
          as (tr & Htr & Hn & Hurl & Hsl).
        rewrite app_nil_r in Htr.
        exists (EvLog INFO "Follow user: %s" :: tr).
        split; [rewrite Htr; cbn; now rewrite <- app_assoc |].
        split; [exact Hn |]. split; [| exact Hsl].
        constructor; [cbn; discriminate | exact Hurl].
Qed.

Lemma handlers_bounded_witness :
  (forall k, (0 <= rng (new_world 0 (constant_draws (3 # 4))) k < 1)%Q)
  /\ (exists tr,
        trace (snd (like_post (constant_session (Responds (mkResponse 429 false)))
                      (of_string "https://example.org/p/1") false
                      (new_world 0 (constant_draws (3 # 4)))))
        = trace (new_world 0 (constant_draws (3 # 4))) ++ tr
        /\ (request_calls tr <= 5)%nat
        /\ Forall (fun e => is_request e = true ->
                            e = EvRequest "POST" (of_string "https://example.org/p/1")) tr
        /\ (0 <= total_sleep tr <= 93)%Q)
  /\ (exists tr,
        trace (snd (follow_user (constant_session (Responds (mkResponse 429 false)))
                      (of_string "https://example.org/p/1") false
                      (new_world 0 (constant_draws (3 # 4)))))
        = trace (new_world 0 (constant_draws (3 # 4))) ++ tr
        /\ (request_calls tr <= 5)%nat
        /\ Forall (fun e => is_request e = true ->
                            e = EvRequest "POST" (of_string "https://example.org/p/1")) tr
        /\ (0 <= total_sleep tr <= 93)%Q).
Proof.
  assert (H : forall k, (0 <= rng (new_world 0 (constant_draws (3 # 4))) k < 1)%Q)
    by (intros k; split; [discriminate | reflexivity]).
  split; [exact H |].
  apply (@handlers_bounded (constant_session (Responds (mkResponse 429 false)))
           (of_string "https://example.org/p/1") false
           (new_world 0 (constant_draws (3 # 4))) H).
Defined.

(** As long as [session.request] raises nothing but
    [requests.RequestException]s, a handler raises nothing: it returns a
    boolean. *)
Theorem handlers_contain_transport_errors :
  forall (session : Session) (target : str) (dry_run : bool) (w : World),
    (forall k e, answer session (tid w) k "POST" target = Fails e ->
                 is_RequestException e = true) ->
    (exists b, fst (like_post session target dry_run w) = Return b)
    /\ (exists b, fst (follow_user session target dry_run w) = Return b).
Proof.
  intros session target dry_run w Honly.
  destruct dry_run; [split; exists true; reflexivity |].
  assert (Hnever : forall w0, tid w0 = tid w ->
             forall e, fst (safe_request session "POST" target 5 w0) <> Throw e).
  { intros w0 Htid e Hthrow.
    destruct (safe_request_result_facts session "POST" target 5 w0)
      as (tr & _ & _ & _ & Hexn).
    destruct (Hexn e Hthrow) as (He & _ & Hans).
    rewrite Htid in Hans. apply Honly in Hans. congruence. }
  split.
  - rewrite like_post_run.
    pose proof (Hnever (emit (EvLog INFO "Like post: %s") w) eq_refl) as Hn.
    destruct (safe_request session "POST" target 5 (emit (EvLog INFO "Like post: %s") w))
      as [[resp | e] w1]; [| now destruct (Hn e)].
    destruct (resp_and_ok resp); eexists; reflexivity.
  - rewrite follow_user_run.
    pose proof (Hnever (emit (EvLog INFO "Follow user: %s") w) eq_refl) as Hn.
    destruct (safe_request session "POST" target 5 (emit (EvLog INFO "Follow user: %s") w))
      as [[resp | e] w1]; [| now destruct (Hn e)].
    destruct (resp_and_ok resp); eexists; reflexivity.
Qed.

Lemma handlers_contain_transport_errors_witness :
  (forall k e,
     answer (fails_first 7 (mkResponse 200 true)) (tid (new_world 0 (constant_draws 0))) k
       "POST" (of_string "https://example.org/p/1") = Fails e ->
     is_RequestException e = true)
  /\ (exists b,
        fst (like_post (fails_first 7 (mkResponse 200 true))
               (of_string "https://example.org/p/1") false
               (new_world 0 (constant_draws 0))) = Return b)
  /\ (exists b,
        fst (follow_user (fails_first 7 (mkResponse 200 true))
               (of_string "https://example.org/p/1") false
               (new_world 0 (constant_draws 0))) = Return b).
Proof.
  assert (H : forall k e,
     answer (fails_first 7 (mkResponse 200 true)) (tid (new_world 0 (constant_draws 0))) k
       "POST" (of_string "https://example.org/p/1") = Fails e ->
     is_RequestException e = true).
  { intros k e Heq. unfold fails_first in Heq. cbn [answer] in Heq.
    destruct (k <? 7)%nat; [injection Heq as <-; reflexivity | discriminate Heq]. }
  split; [exact H |].
  apply (@handlers_contain_transport_errors (fails_first 7 (mkResponse 200 true))
           (of_string "https://example.org/p/1") false (new_world 0 (constant_draws 0)) H).
Defined.

(** ** The dispatcher, whatever the schedule *)

Lemma submit_all_unknown_action session action dry_run pool :
  action <> "like"%string -> action <> "follow"%string ->
  forall targets futures,
    submit_all session action dry_run pool targets futures = futures.
Proof.
  intros Hlike Hfollow. apply String.eqb_neq in Hlike, Hfollow.
  induction targets as [| t rest IH]; intros futures; cbn [submit_all]; [reflexivity |].
  now rewrite Hlike, Hfollow.
Qed.

(** With an action other than "like" and "follow", [process_targets] submits
    nothing and returns the empty list, however many targets it is given. *)
Theorem process_targets_unknown_action :
  forall (session : Session) (targets : list str) (action : string)
         (concurrency : Z) (dry_run : bool) (pool : Pool),
    1 <= concurrency ->
    action <> "like"%string -> action <> "follow"%string ->
    process_targets session targets action concurrency dry_run pool = (Return [], []).
Proof.
  intros session targets action concurrency dry_run pool Hc Hlike Hfollow.
  unfold process_targets.
  assert (Hb : (concurrency <=? 0) = false) by (apply Z.leb_gt; lia).
  rewrite Hb, submit_all_unknown_action by assumption. reflexivity.
Qed.

Lemma process_targets_unknown_action_witness :
  1 <= 2
  /\ "unfollow"%string <> "like"%string
  /\ "unfollow"%string <> "follow"%string
  /\ process_targets (constant_session (Responds (mkResponse 200 true))) five_targets
       "unfollow" 2 false in_order = (Return [], []).
Proof.
  split; [lia |]. split; [discriminate |]. split; [discriminate |].
  apply (@process_targets_unknown_action
           (constant_session (Responds (mkResponse 200 true))) five_targets
           "unfollow" 2 false in_order); [lia | discriminate | discriminate].
Defined.

(** The tasks do not depend on when they complete. *)
Lemma submit_all_schedule session action dry_run (p1 p2 : Pool) :
  (forall i, task_of p1 i = task_of p2 i /\ random_of p1 i = random_of p2 i) ->
  forall targets futures,
    submit_all session action dry_run p1 targets futures
    = submit_all session action dry_run p2 targets futures.
Proof.
  intros Hsame.
  assert (Hsubmit : forall i t task, submit p1 i t task = submit p2 i t task).
  { intros i t task. unfold submit. destruct (Hsame i) as [-> ->]. reflexivity. }
  induction targets as [| t rest IH]; intros futures; cbn [submit_all]; [reflexivity |].
  now rewrite !Hsubmit, IH.
Qed.

Lemma returned_values_perm (l l' : list Future) :
  Permutation l l' -> Permutation (returned_values l) (returned_values l').
Proof. unfold returned_values. apply Permutation_flat_map. Qed.

(** The order in which the tasks complete changes the order of the results
    and nothing else: two schedules of the same tasks give the same results
    up to a permutation, those of the tasks in submission order. *)
Theorem process_targets_results_up_to_order :
  forall (session : Session) (targets : list str) (action : string)
         (concurrency : Z) (dry_run : bool) (p1 p2 : Pool),
    1 <= concurrency ->
    (forall i, task_of p1 i = task_of p2 i /\ random_of p1 i = random_of p2 i) ->
    exists r1 r2 : list bool,
      fst (process_targets session targets action concurrency dry_run p1) = Return r1
      /\ fst (process_targets session targets action concurrency dry_run p2) = Return r2
      /\ Permutation r1 r2
      /\ Permutation r1
           (returned_values (submit_all session action dry_run p1 targets [])).
Proof.
  intros session targets action concurrency dry_run p1 p2 Hc Hsame.
  destruct (process_targets_run session targets action dry_run p1 Hc) as (evs1 & Hrun1 & _).
  destruct (process_targets_run session targets action dry_run p2 Hc) as (evs2 & Hrun2 & _).
  rewrite Hrun1, Hrun2. cbn [fst].
  rewrite <- (submit_all_schedule session action dry_run p1 p2 Hsame targets []).
  set (futures := submit_all session action dry_run p1 targets []).
  do 2 eexists. split; [reflexivity |]. split; [reflexivity |].
  split.
  - apply returned_values_perm.
    eapply perm_trans; [apply as_completed_perm |].
    apply Permutation_sym, as_completed_perm.
  - apply returned_values_perm, as_completed_perm.
Qed.

Lemma process_targets_results_up_to_order_witness :
  1 <= 2
  /\ (forall i, task_of in_order i = task_of last_first i
                /\ random_of in_order i = random_of last_first i)
  /\ exists r1 r2 : list bool,
      fst (process_targets (fails_first 9 (mkResponse 200 true)) five_targets "follow" 2
             false in_order) = Return r1
      /\ fst (process_targets (fails_first 9 (mkResponse 200 true)) five_targets "follow" 2
                false last_first) = Return r2
      /\ Permutation r1 r2
      /\ Permutation r1
           (returned_values
              (submit_all (fails_first 9 (mkResponse 200 true)) "follow" false in_order
                 five_targets [])).
Proof.
  assert (H : forall i, task_of in_order i = task_of last_first i
                        /\ random_of in_order i = random_of last_first i)
    by (intros i; split; reflexivity).
  split; [lia |]. split; [exact H |].
  apply (@process_targets_results_up_to_order (fails_first 9 (mkResponse 200 true))
           five_targets "follow" 2 false in_order last_first ltac:(lia) H).
Defined.

Lemma submit_all_index session action dry_run pool :
  action = "like"%string \/ action = "follow"%string ->
  forall targets futures,
    map index (submit_all session action dry_run pool targets futures)
    = map index futures ++ seq (List.length futures) (List.length targets).
Proof.
  intros Hact targets. induction targets as [| t rest IH]; intros futures;
    cbn [submit_all].
  - cbn. now rewrite app_nil_r.
  - assert (Hindex : forall i task, index (submit pool i t task) = i).
    { intros i task. unfold submit.
      now destruct (task (new_world (task_of pool i) (random_of pool i))). }
    destruct Hact as [-> | ->]; cbn [String.eqb Ascii.eqb Bool.eqb];
      rewrite IH, map_app, length_app; cbn [map List.length seq];
      rewrite Hindex, <- app_assoc, Nat.add_1_r; reflexivity.
Qed.

Lemma collect_completed done :
  forall results,
    completed_futures (snd (collect done results)) = done
    /\ submitted_futures (snd (collect done results)) = [].
Proof.
  unfold completed_futures, submitted_futures.
  induction done as [| f rest IH]; intros results; cbn [collect].
  - split; reflexivity.
  - destruct (outcome f) as [b | e].
    + destruct (IH (results ++ [b])) as [Hc Hs].
      destruct (collect rest (results ++ [b])) as [rs evs]; cbn in *. now rewrite Hc, Hs.
    + destruct (IH results) as [Hc Hs].
      destruct (collect rest results) as [rs evs]; cbn in *. now rewrite Hc, Hs.
Qed.

Lemma submitted_futures_app (l1 l2 : list main_event) :
  submitted_futures (l1 ++ l2) = submitted_futures l1 ++ submitted_futures l2.
Proof. apply flat_map_app. Qed.

Lemma completed_futures_app (l1 l2 : list main_event) :
  completed_futures (l1 ++ l2) = completed_futures l1 ++ completed_futures l2.
Proof. apply flat_map_app. Qed.

Lemma submitted_futures_map (fs : list Future) :
  submitted_futures (map Submitted fs) = fs /\ completed_futures (map Submitted fs) = [].
Proof.
  unfold submitted_futures, completed_futures.
  induction fs as [| f fs [IH1 IH2]]; cbn; [auto |]. now rewrite IH1, IH2.
Qed.

(** What the main thread sees of one call of [process_targets]. *)
Lemma process_targets_futures session targets action concurrency dry_run pool :
  1 <= concurrency ->
  submitted_futures (snd (process_targets session targets action concurrency dry_run pool))
  = submit_all session action dry_run pool targets []
  /\ completed_futures (snd (process_targets session targets action concurrency dry_run pool))
     = as_completed pool (submit_all session action dry_run pool targets []).
Proof.
  intros Hc.
  destruct (process_targets_run session targets action dry_run pool Hc) as (evs & Hrun & Hevs).
  rewrite Hrun. cbn [snd].
  rewrite submitted_futures_app, completed_futures_app.
  destruct (submitted_futures_map (submit_all session action dry_run pool targets []))
    as [-> ->].
  destruct (collect_completed (as_completed pool
                                 (submit_all session action dry_run pool targets [])) [])
    as [Hc' Hs']. rewrite <- Hevs in Hc', Hs'.
  now rewrite Hc', Hs', app_nil_r.
Qed.

(** With action like or follow, [process_targets] submits one task for each
    target, in the order of the targets, all of them before it collects any
    result; [as_completed] then yields each of these futures exactly once. *)
Theorem process_targets_one_task_per_target :
  forall (session : Session) (targets : list str) (action : string)
         (concurrency : Z) (dry_run : bool) (pool : Pool),
    1 <= concurrency ->
    action = "like"%string \/ action = "follow"%string ->
    exists (futures : list Future) (evs : list main_event),
      snd (process_targets session targets action concurrency dry_run pool)
      = map Submitted futures ++ evs
      /\ map target futures = targets
      /\ map index futures = seq 0 (List.length targets)
      /\ submitted_futures evs = []
      /\ Permutation (completed_futures evs) futures.
Proof.
  intros session targets action concurrency dry_run pool Hc Hact.
  destruct (process_targets_run session targets action dry_run pool Hc) as (evs & Hrun & Hevs).
  exists (submit_all session action dry_run pool targets []), evs.
  rewrite Hrun. cbn [snd]. split; [reflexivity |].
  split; [now rewrite submit_all_targets |].
  split; [now rewrite submit_all_index |].
  destruct (collect_completed (as_completed pool
                                 (submit_all session action dry_run pool targets [])) [])
    as [Hc' Hs']. rewrite <- Hevs in Hc', Hs'.
  split; [exact Hs' |]. rewrite Hc'. apply as_completed_perm.
Qed.

Lemma process_targets_one_task_per_target_witness :
  1 <= 2
  /\ ("follow"%string = "like"%string \/ "follow"%string = "follow"%string)
  /\ exists (futures : list Future) (evs : list main_event),
      snd (process_targets (failing_for 3) five_targets "follow" 2 false last_first)
      = map Submitted futures ++ evs
      /\ map target futures = five_targets
      /\ map index futures = seq 0 (List.length five_targets)
      /\ submitted_futures evs = []
      /\ Permutation (completed_futures evs) futures.
Proof.
  split; [lia |]. split; [right; reflexivity |].
  apply (@process_targets_one_task_per_target (failing_for 3) five_targets "follow" 2
           false last_first); [lia | right; reflexivity].
Defined.

(** ** The target file, further *)

Lemma whitespace_only_app (a b : str) :
  whitespace_only (a ++ b) = whitespace_only a && whitespace_only b.
Proof. apply forallb_app. Qed.

Lemma whitespace_only_rev (a : str) : whitespace_only (rev a) = whitespace_only a.
Proof.
  unfold whitespace_only. induction a as [| c a IH]; cbn; [reflexivity |].
  rewrite forallb_app, IH. cbn. rewrite andb_true_r. apply andb_comm.
Qed.

Lemma lstrip_whitespace_prefix (spaces s : str) :
  whitespace_only spaces = true -> lstrip (spaces ++ s) = lstrip s.
Proof.
  unfold whitespace_only. induction spaces as [| c spaces IH]; cbn; [reflexivity |].
  intros H. apply andb_true_iff in H as [Hc Hs]. rewrite Hc. now apply IH.
Qed.

Lemma clean_strip (t : str) : clean t -> strip t = t.
Proof. intros (_ & Hl & Hr). unfold strip. now rewrite Hl. Qed.

Lemma clean_head (t : str) : clean t -> exists c rest, t = c :: rest /\ isspace c = false.
Proof.
  intros (Hne & Hl & _).
  destruct (lstrip_head t) as [H | (c & rest & H & Hc)]; rewrite Hl in H.
  - contradiction.
  - now exists c, rest.
Qed.

(** [strip] removes whitespace at the two ends and nothing else: the line is
    the stripped text between two runs of whitespace. *)
Theorem strip_removes_surrounding_whitespace :
  forall l : str,
    exists before after : str,
      l = before ++ strip l ++ after
      /\ whitespace_only before = true
      /\ whitespace_only after = true
      /\ (strip l = [] \/ clean (strip l)).
Proof.
  intros l.
  destruct (lstrip_suffix l) as (before & Hl & Hbefore).
  destruct (lstrip_suffix (rev (lstrip l))) as (spaces & Hr & Hspaces).
  exists before, (rev spaces).
  assert (Hmid : lstrip l = strip l ++ rev spaces).
  { unfold strip, rstrip. rewrite <- rev_app_distr, <- Hr. now rewrite rev_involutive. }
  split; [now rewrite <- Hmid |].
  split; [exact Hbefore |].
  split; [now rewrite whitespace_only_rev |].
  destruct (strip l) eqn:Hs; [now left |]. right. rewrite <- Hs.
  split; [rewrite Hs; discriminate | apply strip_stripped].
Qed.

(** Padding a clean target with whitespace and stripping gives the target
    back. *)
Lemma strip_padded (before t after : str) :
  clean t -> whitespace_only before = true -> whitespace_only after = true ->
  strip (before ++ t ++ after) = t.
Proof.
  intros Hclean Hbefore Hafter.
  destruct (clean_head Hclean) as (c & rest & Ht & Hc).
  destruct Hclean as (_ & _ & Hr).
  unfold strip. rewrite lstrip_whitespace_prefix by assumption.
  assert (Hl : lstrip (t ++ after) = t ++ after).
  { rewrite Ht. cbn. now rewrite Hc. }
  rewrite Hl. unfold rstrip in *. rewrite rev_app_distr.
  rewrite lstrip_whitespace_prefix by now rewrite whitespace_only_rev.
  exact Hr.
Qed.

(** A file that holds clean targets, one per line, each between the same
    runs of whitespace (an indentation, a newline), loads as these targets,
    duplicates and order included. *)
Theorem load_targets_from_file_padded :
  forall (targets : list str) (before after : str),
    Forall clean targets ->
    whitespace_only before = true -> whitespace_only after = true ->
    load_targets_from_file (map (fun t => before ++ t ++ after) targets) = targets.
Proof.
  intros targets before after Hclean Hbefore Hafter.
  induction Hclean as [| t rest Ht _ IH]; cbn [map load_targets_from_file];
    [reflexivity |].
  rewrite strip_padded, IH by assumption.
  destruct Ht as (Hne & _). now destruct t.
Qed.

Lemma load_targets_from_file_padded_witness :
  Forall clean [of_string "https://example.org/p/1"; of_string "user 42"]
  /\ whitespace_only [32%N; 9%N] = true
  /\ whitespace_only [13%N; 10%N] = true
  /\ load_targets_from_file
       (map (fun t => [32%N; 9%N] ++ t ++ [13%N; 10%N])
          [of_string "https://example.org/p/1"; of_string "user 42"])
     = [of_string "https://example.org/p/1"; of_string "user 42"].
Proof.
  assert (H : Forall clean [of_string "https://example.org/p/1"; of_string "user 42"]).
  { repeat constructor; try discriminate; reflexivity. }
  split; [exact H |]. split; [reflexivity |]. split; [reflexivity |].
  apply (@load_targets_from_file_padded
           [of_string "https://example.org/p/1"; of_string "user 42"]
           [32%N; 9%N] [13%N; 10%N] H); reflexivity.
Defined.

Lemma load_targets_from_file_clean (fh : list str) :
  Forall clean (load_targets_from_file fh).
Proof.
  rewrite load_targets_from_file_filter. apply Forall_forall. intros t Ht.
  apply in_map_iff in Ht as (l & <- & Hl). apply filter_In in Hl as [_ Hnb].
  split; [| apply strip_stripped]. unfold nonblank in Hnb. now destruct (strip l).
Qed.

(** Loading is idempotent: the loaded targets, read as lines, load as
    themselves. *)
Theorem load_targets_from_file_idempotent :
  forall fh : list str,
    load_targets_from_file (load_targets_from_file fh) = load_targets_from_file fh.
Proof.
  intros fh.
  pose proof (load_targets_from_file_clean fh) as Hclean.
  induction Hclean as [| t rest Ht _ IH]; cbn [load_targets_from_file]; [reflexivity |].
  rewrite (clean_strip Ht), IH. destruct Ht as (Hne & _). now destruct t.
Qed.

(** No target is loaded exactly when every line of the file is empty or
    whitespace only (an empty file included). *)
Theorem load_targets_from_file_nothing :
  forall fh : list str,
    load_targets_from_file fh = [] <-> forallb whitespace_only fh = true.
Proof.
  intros fh. induction fh as [| l rest IH]; cbn [load_targets_from_file forallb];
    [tauto |].
  fold (nonblank l). rewrite nonblank_iff.
  destruct (whitespace_only l); cbn; [exact IH |]. split; discriminate.
Qed.

(** ** The run, further *)

(** [main] with a concurrency limit of at least 1: the batches, and how they
    cover the targets. *)
Lemma main_run args fh session run :
  1 <= concurrency args ->
  exists m : nat,
    main args fh session run
    = (Return tt,
       ([Logged INFO "Iniciando run: action=%s targets=%d concurrency=%d dry_run=%s"],
        flat_map (batch_events session (load_targets_from_file fh) (action args)
                    (concurrency args) (dry_run args) run) (seq 0 m)))
    /\ concat (map (chunk_of (load_targets_from_file fh) (concurrency args)) (seq 0 m))
       = load_targets_from_file fh
    /\ (List.length (load_targets_from_file fh) <= m * Z.to_nat (concurrency args))%nat
    /\ (forall i, (i < m)%nat ->
          (i * Z.to_nat (concurrency args) < List.length (load_targets_from_file fh))%nat).
Proof.
  intros Hc.
  set (targets := load_targets_from_file fh).
  destruct (py_range_chunks (List.length targets) Hc) as (m & Hrange & Hcover & Hstart & _).
  exists m. unfold main. fold targets. rewrite Hrange.
  rewrite (main_loop_batches session targets (action args) (dry_run args) run Hc m 0).
  split; [reflexivity |]. split; [| split; assumption].
  rewrite (map_ext _ (fun i => firstn (Z.to_nat (concurrency args))
                                 (skipn (i * Z.to_nat (concurrency args)) targets)))
    by (intros i; now apply chunk_of_firstn).
  rewrite concat_chunks. now apply firstn_all2.
Qed.

Lemma map_snd_tag (i : nat) (evs : list main_event) : map snd (tag i evs) = evs.
Proof. unfold tag. rewrite map_map. cbn. apply map_id. Qed.

Lemma batch_events_submitted session targets action concurrency dry_run run i :
  1 <= concurrency ->
  action = "like"%string \/ action = "follow"%string ->
  map target
    (submitted_futures
       (map snd (batch_events session targets action concurrency dry_run run i)))
  = chunk_of targets concurrency i.
Proof.
  intros Hc Hact. unfold batch_events. rewrite map_snd_tag, submitted_futures_app.
  destruct (process_targets_futures session (chunk_of targets concurrency i) action
              dry_run (pool_of run i) Hc) as [-> _].
  cbn. rewrite app_nil_r. now rewrite submit_all_targets.
Qed.

Lemma batches_submitted session targets action concurrency dry_run run (ids : list nat) :
  1 <= concurrency ->
  action = "like"%string \/ action = "follow"%string ->
  map target
    (submitted_futures
       (map snd (flat_map (batch_events session targets action concurrency dry_run run) ids)))
  = concat (map (chunk_of targets concurrency) ids).
Proof.
  intros Hc Hact. induction ids as [| i rest IH]; [reflexivity |].
  cbn [flat_map map concat].
  rewrite map_app, submitted_futures_app, map_app, IH.
  now rewrite batch_events_submitted by assumption.
Qed.

(** With a concurrency limit of at least 1 and action like or follow, a run
    submits one task for each loaded target, in the order of the file: no
    target is skipped and none is handled twice. *)
Theorem main_submits_every_target_once :
  forall (args : Namespace) (fh : list str) (session : Session) (run : Run),
    1 <= concurrency args ->
    action args = "like"%string \/ action args = "follow"%string ->
    fst (main args fh session run) = Return tt
    /\ map target (submitted_futures (map snd (snd (snd (main args fh session run)))))
       = load_targets_from_file fh.
Proof.
  intros args fh session run Hc Hact.
  destruct (main_run args fh session run Hc) as (m & Hmain & Hcover & _).
  rewrite Hmain. cbn [fst snd]. split; [reflexivity |].
  rewrite batches_submitted by assumption. exact Hcover.
Qed.

Lemma main_submits_every_target_once_witness :
  1 <= concurrency (like_args 2 false)
  /\ (action (like_args 2 false) = "like"%string
      \/ action (like_args 2 false) = "follow"%string)
  /\ fst (main (like_args 2 false) five_targets (failing_for 1) (steady_run (1 # 2)))
     = Return tt
  /\ map target
       (submitted_futures
          (map snd (snd (snd (main (like_args 2 false) five_targets (failing_for 1)
                                (steady_run (1 # 2)))))))
     = load_targets_from_file five_targets.
Proof.
  split; [cbn; lia |]. split; [left; reflexivity |].
  apply (@main_submits_every_target_once (like_args 2 false) five_targets (failing_for 1)
           (steady_run (1 # 2))); [cbn; lia | left; reflexivity].
Defined.

Lemma process_targets_no_sleep session targets action concurrency dry_run pool :
  main_sleeps (snd (process_targets session targets action concurrency dry_run pool)) = [].
Proof.
  unfold process_targets. destruct (concurrency <=? 0); [reflexivity |].
  set (futures := submit_all session action dry_run pool targets []).
  assert (Hcollect : forall done results, main_sleeps (snd (collect done results)) = []).
  { unfold main_sleeps. induction done as [| f rest IH]; intros results; cbn [collect];
      [reflexivity |].
    destruct (outcome f) as [b | e].
    - specialize (IH (results ++ [b])).
      destruct (collect rest (results ++ [b])); cbn in *. exact IH.
    - specialize (IH results). destruct (collect rest results); cbn in *. exact IH. }
  specialize (Hcollect (as_completed pool futures) []).
  destruct (collect (as_completed pool futures) []) as [rs evs]; cbn [snd] in *.
  unfold main_sleeps in *. rewrite flat_map_app, Hcollect, app_nil_r.
  clear. induction futures as [| f fs IH]; cbn; auto.
Qed.

Lemma batches_sleeps session targets action concurrency dry_run run (ids : list nat) :
  main_sleeps (map snd (flat_map (batch_events session targets action concurrency
                                    dry_run run) ids))
  = map (fun i => uniform 2 6 (main_random run i)) ids.
Proof.
  induction ids as [| i rest IH]; [reflexivity |].
  cbn [flat_map map]. rewrite map_app.
  unfold main_sleeps in *. rewrite flat_map_app, IH.
  unfold batch_events at 1. rewrite map_snd_tag, flat_map_app.
  fold (main_sleeps (snd (process_targets session (chunk_of targets concurrency i) action
                            concurrency dry_run (pool_of run i)))).
  now rewrite process_targets_no_sleep.
Qed.

Lemma Qsum_between (lo hi : Q) (l : list Q) :
  Forall (fun d => lo <= d <= hi)%Q l ->
  (lo * inject_Z (Z.of_nat (List.length l)) <= Qsum l
   /\ Qsum l <= hi * inject_Z (Z.of_nat (List.length l)))%Q.
Proof.
  induction 1 as [| d l [Hlo Hhi] _ [IHlo IHhi]].
  - cbn. split; ring_simplify; apply Qle_refl.
  - cbn [List.length Qsum fold_right]. fold (Qsum l).
    rewrite Nat2Z.inj_succ. unfold Z.succ. rewrite inject_Z_plus.
    change (inject_Z 1) with 1%Q.
    set (n := inject_Z (Z.of_nat (List.length l))) in *.
    split; lra.
Qed.

(** With a concurrency limit [c] of at least 1, a run over [n] targets
    sleeps once per chunk, the last chunk included: [m] times, where [m] is
    [n / c] rounded up, for between [2 * m] and [6 * m] seconds in all. *)
Theorem main_sleeps_once_per_chunk :
  forall (args : Namespace) (fh : list str) (session : Session) (run : Run),
    1 <= concurrency args ->
    (forall i, (0 <= main_random run i < 1)%Q) ->
    exists m : nat,
      Z.of_nat (List.length (load_targets_from_file fh)) <= Z.of_nat m * concurrency args
      /\ Z.of_nat m * concurrency args
         < Z.of_nat (List.length (load_targets_from_file fh)) + concurrency args
      /\ List.length (main_sleeps (map snd (snd (snd (main args fh session run))))) = m
      /\ (2 * inject_Z (Z.of_nat m)
          <= Qsum (main_sleeps (map snd (snd (snd (main args fh session run)))))
          /\ Qsum (main_sleeps (map snd (snd (snd (main args fh session run)))))
             <= 6 * inject_Z (Z.of_nat m))%Q.
Proof.
  intros args fh session run Hc Hdraws.
  destruct (main_run args fh session run Hc) as (m & Hmain & _ & Hcover & Hstart).
  exists m. rewrite Hmain. cbn [snd]. rewrite batches_sleeps.
  assert (Hmul : forall i : nat,
             Z.of_nat (i * Z.to_nat (concurrency args)) = Z.of_nat i * concurrency args)
    by (intros; rewrite Nat2Z.inj_mul, Z2Nat.id; lia).
  split; [rewrite <- Hmul; lia |].
  split.
  { destruct m as [| m']; [lia |].
    specialize (Hstart m' ltac:(lia)). apply Nat2Z.inj_lt in Hstart.
    rewrite Hmul in Hstart. rewrite Nat2Z.inj_succ. lia. }
  split; [now rewrite length_map, length_seq |].
  pose proof (@Qsum_between 2 6 (map (fun i => uniform 2 6 (main_random run i)) (seq 0 m)))
    as Hsum.
  rewrite length_map, length_seq in Hsum. apply Hsum.
  apply Forall_forall. intros d Hd. apply in_map_iff in Hd as (i & <- & _).
  destruct (uniform_2_6 (Hdraws i)) as [H2 H6]. split; lra.
Qed.

Lemma main_sleeps_once_per_chunk_witness :
  1 <= concurrency (like_args 2 true)
  /\ (forall i, (0 <= main_random (steady_run (1 # 2)) i < 1)%Q)
  /\ exists m : nat,
      Z.of_nat (List.length (load_targets_from_file five_targets))
      <= Z.of_nat m * concurrency (like_args 2 true)
      /\ Z.of_nat m * concurrency (like_args 2 true)
         < Z.of_nat (List.length (load_targets_from_file five_targets))
           + concurrency (like_args 2 true)
      /\ List.length
           (main_sleeps
              (map snd (snd (snd (main (like_args 2 true) five_targets
                                    (constant_session (Responds (mkResponse 200 true)))
                                    (steady_run (1 # 2))))))) = m
      /\ (2 * inject_Z (Z.of_nat m)
          <= Qsum (main_sleeps
                     (map snd (snd (snd (main (like_args 2 true) five_targets
                                           (constant_session (Responds (mkResponse 200 true)))
                                           (steady_run (1 # 2)))))))
          /\ Qsum (main_sleeps
                     (map snd (snd (snd (main (like_args 2 true) five_targets
                                           (constant_session (Responds (mkResponse 200 true)))
                                           (steady_run (1 # 2)))))))
             <= 6 * inject_Z (Z.of_nat m))%Q.
Proof.
  assert (Hc : 1 <= concurrency (like_args 2 true)) by (cbn; lia).
  assert (Hd : forall i, (0 <= main_random (steady_run (1 # 2)) i < 1)%Q)
    by (intros i; split; [discriminate | reflexivity]).
  split; [exact Hc |]. split; [exact Hd |].
  apply (@main_sleeps_once_per_chunk (like_args 2 true) five_targets
           (constant_session (Responds (mkResponse 200 true))) (steady_run (1 # 2)) Hc Hd).
Defined.

(** In a dry run a submitted task returns true without a request or a
    sleep. *)
Lemma submit_all_dry_run_effects session action pool :
  forall targets futures,
    Forall (fun f => outcome f = Return true
                     /\ request_calls (effects f) = 0%nat
                     /\ sleep_calls (effects f) = 0%nat) futures ->
    Forall (fun f => outcome f = Return true
                     /\ request_calls (effects f) = 0%nat
                     /\ sleep_calls (effects f) = 0%nat)
      (submit_all session action true pool targets futures).
Proof.
  induction targets as [| t rest IH]; intros futures Hfut; cbn [submit_all].
  - exact Hfut.
  - apply IH.
    destruct (action =? "like")%string; [| destruct (action =? "follow")%string];
      try exact Hfut; apply Forall_app; split; auto; constructor; auto;
      cbn; repeat split; reflexivity.
Qed.

Lemma main_without_batches args fh session run :
  concurrency args <= 0 ->
  snd (snd (main args fh session run)) = [].
Proof.
  intros Hc. unfold main, py_range.
  destruct (concurrency args =? 0) eqn:Hz; [reflexivity |].
  apply Z.eqb_neq in Hz.
  assert (Hb1 : (0 <? concurrency args) = false) by (apply Z.ltb_ge; lia).
  assert (Hb2 : (Z.of_nat (List.length (load_targets_from_file fh)) <? 0) = false)
    by (apply Z.ltb_ge; lia).
  now rewrite Hb1, Hb2.
Qed.

(** A dry run touches nothing: whatever the concurrency limit, the action
    and the session, every task that [main] submits returns true without a
    request and without a sleep. *)
Theorem main_dry_run_makes_no_request :
  forall (args : Namespace) (fh : list str) (session : Session) (run : Run),
    dry_run args = true ->
    Forall (fun f => outcome f = Return true
                     /\ request_calls (effects f) = 0%nat
                     /\ sleep_calls (effects f) = 0%nat)
      (submitted_futures (map snd (snd (snd (main args fh session run))))).
Proof.
  intros args fh session run Hdry.
  destruct (Z_le_gt_dec (concurrency args) 0) as [Hle | Hgt].
  - rewrite main_without_batches by assumption. constructor.
  - destruct (main_run args fh session run ltac:(lia)) as (m & Hmain & _).
    rewrite Hmain. cbn [snd]. rewrite Hdry. clear Hmain.
    assert (Hc : 1 <= concurrency args) by lia.
    induction (seq 0 m) as [| i rest IH]; [constructor |].
    cbn [flat_map]. rewrite map_app, submitted_futures_app. apply Forall_app.
    split; [| exact IH].
    unfold batch_events. rewrite map_snd_tag, submitted_futures_app.
    destruct (process_targets_futures session
                (chunk_of (load_targets_from_file fh) (concurrency args) i)
                (action args) true (pool_of run i) Hc)
      as [-> _].
    cbn. rewrite app_nil_r. apply submit_all_dry_run_effects. constructor.
Qed.

Lemma main_dry_run_makes_no_request_witness :
  dry_run (like_args 2 true) = true
  /\ Forall (fun f => outcome f = Return true
                      /\ request_calls (effects f) = 0%nat
                      /\ sleep_calls (effects f) = 0%nat)
       (submitted_futures
          (map snd (snd (snd (main (like_args 2 true) five_targets
                                (constant_session (Fails (OtherException "ValueError")))
                                (steady_run (1 # 2))))))).
Proof.
  split; [reflexivity |].
  apply (@main_dry_run_makes_no_request (like_args 2 true) five_targets
           (constant_session (Fails (OtherException "ValueError"))) (steady_run (1 # 2))).
  reflexivity.
Defined.

(** With a concurrency limit of 0 [main] raises the [ValueError] of [range]
    right after its first log record, before any target is handled. *)
Theorem main_zero_concurrency_raises :
  forall (args : Namespace) (fh : list str) (session : Session) (run : Run),
    concurrency args = 0 ->
    main args fh session run
    = (Throw (OtherException "ValueError"),
       ([Logged INFO "Iniciando run: action=%s targets=%d concurrency=%d dry_run=%s"], [])).
Proof.
  intros args fh session run Hz. unfold main, py_range. now rewrite Hz.
Qed.

Lemma main_zero_concurrency_raises_witness :
  concurrency (like_args 0 false) = 0
  /\ main (like_args 0 false) five_targets
       (constant_session (Responds (mkResponse 200 true))) (steady_run (1 # 2))
     = (Throw (OtherException "ValueError"),
        ([Logged INFO "Iniciando run: action=%s targets=%d concurrency=%d dry_run=%s"], [])).
Proof.
  split; [reflexivity |].
  apply (@main_zero_concurrency_raises (like_args 0 false) five_targets
           (constant_session (Responds (mkResponse 200 true))) (steady_run (1 # 2))).
  reflexivity.
Defined.

(** With any other concurrency limit [main] returns normally: whatever the
    tasks raise is caught by [process_targets] and never stops a run. *)
Theorem main_survives_its_tasks :
  forall (args : Namespace) (fh : list str) (session : Session) (run : Run),
    concurrency args <> 0 ->
    fst (main args fh session run) = Return tt.
Proof.
  intros args fh session run Hnz.
  destruct (Z_le_gt_dec (concurrency args) 0) as [Hle | Hgt].
  - unfold main, py_range.
    assert (Hb0 : (concurrency args =? 0) = false) by (apply Z.eqb_neq; lia).
    assert (Hb1 : (0 <? concurrency args) = false) by (apply Z.ltb_ge; lia).
    assert (Hb2 : (Z.of_nat (List.length (load_targets_from_file fh)) <? 0) = false)
      by (apply Z.ltb_ge; lia).
    now rewrite Hb0, Hb1, Hb2.
  - destruct (main_run args fh session run ltac:(lia)) as (m & Hmain & _).
    now rewrite Hmain.
Qed.

Lemma main_survives_its_tasks_witness :
  concurrency (like_args 2 false) <> 0
  /\ fst (main (like_args 2 false) five_targets
            (constant_session (Fails (OtherException "ValueError"))) (steady_run (1 # 2)))
     = Return tt.
Proof.
  split; [cbn; lia |].
  apply (@main_survives_its_tasks (like_args 2 false) five_targets
           (constant_session (Fails (OtherException "ValueError"))) (steady_run (1 # 2))).
  cbn; lia.
Defined.

(** With a negative concurrency limit [main] returns normally without
    having handled a single target: no task, no sleep. *)
Theorem main_negative_concurrency_does_nothing :
  forall (args : Namespace) (fh : list str) (session : Session) (run : Run),
    concurrency args < 0 ->
    main args fh session run
    = (Return tt,
       ([Logged INFO "Iniciando run: action=%s targets=%d concurrency=%d dry_run=%s"], [])).
Proof.
  intros args fh session run Hc. unfold main, py_range.
  assert (Hb0 : (concurrency args =? 0) = false) by (apply Z.eqb_neq; lia).
  assert (Hb1 : (0 <? concurrency args) = false) by (apply Z.ltb_ge; lia).
  assert (Hb2 : (Z.of_nat (List.length (load_targets_from_file fh)) <? 0) = false)
    by (apply Z.ltb_ge; lia).
  now rewrite Hb0, Hb1, Hb2.
Qed.

Lemma main_negative_concurrency_does_nothing_witness :
  concurrency (like_args (-1) false) < 0
  /\ main (like_args (-1) false) five_targets
       (constant_session (Responds (mkResponse 200 true))) (steady_run (1 # 2))
     = (Return tt,
        ([Logged INFO "Iniciando run: action=%s targets=%d concurrency=%d dry_run=%s"], [])).
Proof.
  split; [cbn; lia |].
  apply (@main_negative_concurrency_does_nothing (like_args (-1) false) five_targets
           (constant_session (Responds (mkResponse 200 true))) (steady_run (1 # 2))).
  cbn; lia.
Defined.

(** A file without a target (empty, or blank lines only) and a concurrency
    limit other than 0: the run ends at once, without a batch and without a
    sleep. *)
Theorem main_without_targets :
  forall (args : Namespace) (fh : list str) (session : Session) (run : Run),
    forallb whitespace_only fh = true ->
    concurrency args <> 0 ->
    main args fh session run
    = (Return tt,
       ([Logged INFO "Iniciando run: action=%s targets=%d concurrency=%d dry_run=%s"], [])).
Proof.
  intros args fh session run Hblank Hnz.
  assert (Hnone : load_targets_from_file fh = []).
  { induction fh as [| l rest IH]; [reflexivity |].
    cbn [forallb] in Hblank. apply andb_true_iff in Hblank as [Hl Hrest].
    cbn [load_targets_from_file]. fold (nonblank l). rewrite nonblank_iff, Hl. cbn.
    now apply IH. }
  unfold main, py_range. rewrite Hnone. cbn [List.length Z.of_nat].
  assert (Hb0 : (concurrency args =? 0) = false) by (apply Z.eqb_neq; lia).
  rewrite Hb0. cbn [Z.ltb Z.compare].
  destruct (0 <? concurrency args); reflexivity.
Qed.

Lemma main_without_targets_witness :
  forallb whitespace_only [[10%N]; [32%N; 9%N; 10%N]; []] = true
  /\ concurrency (like_args 2 false) <> 0
  /\ main (like_args 2 false) [[10%N]; [32%N; 9%N; 10%N]; []]
       (constant_session (Responds (mkResponse 200 true))) (steady_run (1 # 2))
     = (Return tt,
        ([Logged INFO "Iniciando run: action=%s targets=%d concurrency=%d dry_run=%s"], [])).
Proof.
  split; [reflexivity |]. split; [cbn; lia |].
  apply (@main_without_targets (like_args 2 false) [[10%N]; [32%N; 9%N; 10%N]; []]
           (constant_session (Responds (mkResponse 200 true))) (steady_run (1 # 2)));
    [reflexivity | cbn; lia].
Defined.
